(** * Poolakey analytics helpers: purchase mapper, subscription manager,
      exception manager

    A shallow embedding of the three Python modules
    [mapper/purchase_analysis.py], [entity/subscription_manager.py] and
    [exception/android_exception_manager.py], together with the part of
    the Python runtime their results depend on (string predicates,
    binary64 floats, exceptions).

    Conventions of the embedding.
    - In the mapper and the subscription manager a Python [str] is a
      [string]; its characters are read as the code points U+0000 to
      U+00FF, on which [isdigit] and [isspace] below are Python's own
      tables.  In the exception manager, whose texts are encoded when
      they are written to a file, a [str] is the list of its code points,
      U+0000 to U+10FFFF, surrogates included.
    - A Python [float] is a [pyfloat]: an exact rational that is a
      binary64 value, an infinity, or NaN.  The two zeros are identified
      (no function below observes the sign of zero).
    - A call that can raise returns a [result].
    - Failures of the operating system when a file is opened are outside
      the model. *)

From Stdlib Require Import ZArith QArith Qabs Strings.Ascii Strings.String List Bool Lia.
From Stdlib Require Import Floats.SpecFloat.
From stdpp Require Import gmap strings list fin_maps.

Local Open Scope string_scope.
Local Open Scope Z_scope.

(** ** Exceptions *)

Inductive exn : Type :=
| ValueError
| TypeError
| AttributeError
| OverflowError
| ZeroDivisionError
| JSONDecodeError
| UnicodeEncodeError.

Inductive result (A : Type) : Type :=
| Ok (a : A)
| Raise (e : exn).

Arguments Ok {A} a.
Arguments Raise {A} e.

#[global] Instance result_ret : MRet result := fun A a => Ok a.
#[global] Instance result_bind : MBind result :=
  fun A B f m => match m with Ok a => f a | Raise e => Raise e end.

(** ** Characters and strings *)

Module PyStr.

(** [str.isdigit] on U+0000..U+00FF: the ten ASCII digits and the
    superscripts two, three and one (U+00B2, U+00B3, U+00B9). *)
Definition isdigit (c : ascii) : bool :=
  let n := Z.of_N (N_of_ascii c) in
  ((48 <=? n) && (n <=? 57)) || (n =? 178) || (n =? 179) || (n =? 185).

(** The characters [float] and [int] read as decimal digits: on
    U+0000..U+00FF only the ASCII digits. *)
Definition isdecimal (c : ascii) : bool :=
  let n := Z.of_N (N_of_ascii c) in (48 <=? n) && (n <=? 57).

(** [str.isspace], which is also what [str.strip()] removes. *)
Definition isspace (c : ascii) : bool :=
  let n := Z.of_N (N_of_ascii c) in
  ((9 <=? n) && (n <=? 13)) || ((28 <=? n) && (n <=? 32))
  || (n =? 133) || (n =? 160).

Definition is_dot (c : ascii) : bool := Z.of_N (N_of_ascii c) =? 46.

(** [''.join(filter(f, s))] *)
Fixpoint filter_chars (f : ascii -> bool) (s : string) : string :=
  match s with
  | EmptyString => EmptyString
  | String c s' => if f c then String c (filter_chars f s') else filter_chars f s'
  end.

Fixpoint all_chars (f : ascii -> bool) (s : string) : bool :=
  match s with
  | EmptyString => true
  | String c s' => f c && all_chars f s'
  end.

(** Truth value of a string: [bool(s)]. *)
Definition truthy (s : string) : bool :=
  match s with EmptyString => false | String _ _ => true end.

Fixpoint lstrip (s : string) : string :=
  match s with
  | EmptyString => EmptyString
  | String c s' => if isspace c then lstrip s' else s
  end.

(** Removes trailing whitespace; the string is rebuilt from the left and a
    character is kept when it is not a space or something is kept after it. *)
Fixpoint rstrip (s : string) : string :=
  match s with
  | EmptyString => EmptyString
  | String c s' =>
      match rstrip s' with
      | EmptyString => if isspace c then EmptyString else String c EmptyString
      | r => String c r
      end
  end.

(** [s.strip()] *)
Definition strip (s : string) : string := rstrip (lstrip s).

(** Empty, or made of whitespace only. *)
Definition blank (s : string) : bool := all_chars isspace s.

(** Value of a string of decimal digits, most significant first. *)
Fixpoint decimal_value_from (acc : Z) (s : string) : Z :=
  match s with
  | EmptyString => acc
  | String c s' =>
      decimal_value_from (10 * acc + (Z.of_N (N_of_ascii c) - 48)) s'
  end.

Definition decimal_value (s : string) : Z := decimal_value_from 0 s.

(** Splits at the first dot: the part before it, and the part after it
    when there is a dot. *)
Fixpoint split_dot (s : string) : string * option string :=
  match s with
  | EmptyString => (EmptyString, None)
  | String c s' =>
      if is_dot c then (EmptyString, Some s')
      else let '(a, b) := split_dot s' in (String c a, b)
  end.

(** [c * n], the character repeated. *)
Fixpoint repeat_char (c : ascii) (n : nat) : string :=
  match n with
  | O => EmptyString
  | S n' => String c (repeat_char c n')
  end.

End PyStr.

(** ** Binary64 floats *)

Module PyFloat.

Inductive pyfloat : Type :=
| Fin (q : Q)     (* a finite value, kept in lowest terms *)
| PInf
| NInf
| NaN.

(** Nearest integer to [n / d], ties to even ([0 <= n], [0 < d]). *)
Definition round_half_even (n d : Z) : Z :=
  let q := n / d in
  let r := n mod d in
  match 2 * r ?= d with
  | Lt => q
  | Gt => q + 1
  | Eq => if Z.even q then q else q + 1
  end.

(** [floor (log2 (p / d))] for [0 < p] and [0 < d]. *)
Definition floor_log2 (p d : Z) : Z :=
  let e0 := Z.log2 p - Z.log2 d in
  if p * 2 ^ Z.max 0 (- e0) <? d * 2 ^ Z.max 0 e0 then e0 - 1 else e0.

(** The binary64 value nearest to [p / d] ([0 < p], [0 < d]), ties to
    even: 53 significant bits, exponents from -1022 (below that the
    spacing stays [2^-1074]), and infinity from [2^1024 - 2^970] on. *)
Definition binary64_of_pos (p d : Z) : pyfloat :=
  let e := Z.max (floor_log2 p d) (-1022) in
  let s := 52 - e in
  let m := round_half_even (p * 2 ^ Z.max 0 s) (d * 2 ^ Z.max 0 (- s)) in
  if (1024 <=? e) || ((e =? 1023) && (2 ^ 53 <=? m)) then PInf
  else Fin (Qred (Qmake (m * 2 ^ Z.max 0 (- s)) (Z.to_pos (2 ^ Z.max 0 s)))).

Definition fneg (x : pyfloat) : pyfloat :=
  match x with
  | Fin q => Fin (Qred (Qopp q))
  | PInf => NInf
  | NInf => PInf
  | NaN => NaN
  end.

(** Rounding of an exact rational to binary64. *)
Definition rnd (q : Q) : pyfloat :=
  match Qnum q with
  | Z0 => Fin 0
  | Zpos p => binary64_of_pos (Zpos p) (Zpos (Qden q))
  | Zneg p => fneg (binary64_of_pos (Zpos p) (Zpos (Qden q)))
  end.

(** [float(n)] for an [int] too large in magnitude raises; the strings
    read by [float] round to infinity instead. *)
Definition float_of_int (n : Z) : result pyfloat :=
  match rnd (inject_Z n) with
  | Fin q => Ok (Fin q)
  | _ => Raise OverflowError
  end.

(** [a / b] on two [int]s: the exact quotient, rounded once. *)
Definition truediv (a b : Z) : result pyfloat :=
  if b =? 0 then Raise ZeroDivisionError
  else match rnd (Qmake (a * Z.sgn b) (Z.to_pos (Z.abs b))) with
       | Fin q => Ok (Fin q)
       | _ => Raise OverflowError
       end.

(** [x + y] *)
Definition fadd (x y : pyfloat) : pyfloat :=
  match x, y with
  | NaN, _ | _, NaN => NaN
  | PInf, NInf | NInf, PInf => NaN
  | PInf, _ | _, PInf => PInf
  | NInf, _ | _, NInf => NInf
  | Fin a, Fin b => rnd (Qplus a b)
  end.

(** [x < y] *)
Definition flt (x y : pyfloat) : bool :=
  match x, y with
  | NaN, _ | _, NaN => false
  | _, NInf => false
  | NInf, _ => true
  | PInf, _ => false
  | Fin _, PInf => true
  | Fin a, Fin b => match Qcompare a b with Lt => true | _ => false end
  end.

(** [x > y] *)
Definition fgt (x y : pyfloat) : bool := flt y x.

(** [x == y] *)
Definition feq (x y : pyfloat) : bool :=
  match x, y with
  | Fin a, Fin b => Qeq_bool a b
  | PInf, PInf | NInf, NInf => true
  | _, _ => false
  end.

(** [float(s)] for a string [s] made of digit characters and dots only,
    which is all the callers below pass: it parses when it is a run of
    decimal digits with at most one dot and at least one digit, and is
    then the nearest binary64 value; otherwise [ValueError]. *)
Definition float_of_digits_dots (s : string) : result pyfloat :=
  let '(ip, fp) := PyStr.split_dot s in
  let fr := match fp with Some f => f | None => EmptyString end in
  if PyStr.all_chars PyStr.isdecimal ip && PyStr.all_chars PyStr.isdecimal fr
     && PyStr.truthy (ip ++ fr)
  then Ok (rnd (Qmake (PyStr.decimal_value (ip ++ fr))
                      (Z.to_pos (10 ^ Z.of_nat (String.length fr)))))
  else Raise ValueError.

(** The value of a [spec_float] of the standard library, for comparing the
    rounding above with the library's IEEE 754 operations. *)
Definition of_spec_float (f : spec_float) : pyfloat :=
  match f with
  | S754_zero _ => Fin 0
  | S754_infinity false => PInf
  | S754_infinity true => NInf
  | S754_nan => NaN
  | S754_finite sg m e =>
      let v := Qred (Qmake (Zpos m * 2 ^ Z.max 0 e) (Z.to_pos (2 ^ Z.max 0 (- e)))) in
      if sg then Fin (Qred (Qopp v)) else Fin v
  end.

Definition spec_of_Z (n : Z) : spec_float := binary_normalize 53 1024 n 0 false.

End PyFloat.

(** ** Values of the Python runtime *)

Module PyVal.
Import PyFloat.

(** What [json.loads] can return: [None], [bool], [int], [float], [str],
    [list], and [dict] with string keys. *)
#[local] Set Warnings "-register-all".
Inductive pyval : Type :=
| PNone
| PBool (b : bool)
| PInt (z : Z)
| PFloat (f : pyfloat)
| PStr (s : string)
| PList (l : list pyval)
| PDict (d : gmap string pyval).

#[local] Set Warnings "register-all".

(** [v == 0]: numbers compare by value across [bool], [int] and
    [float]; every other value differs from [0]. *)
Definition eq_zero (v : pyval) : bool :=
  match v with
  | PBool b => negb b
  | PInt z => z =? 0
  | PFloat f => feq f (Fin 0)
  | _ => false
  end.

(** [v == s] for a [str] [s]: only the same string is equal to it. *)
Definition eq_str (v : pyval) (s : string) : bool :=
  match v with
  | PStr t => String.eqb t s
  | _ => false
  end.

(** [d.get(k)] and [d.get(k, dflt)] *)
Definition dict_get (d : gmap string pyval) (k : string) : pyval :=
  default PNone (d !! k).

Definition dict_get_default (d : gmap string pyval) (k : string) (dflt : pyval) : pyval :=
  default dflt (d !! k).

End PyVal.

(** ** [max] and [min] with a key *)

Section Extrema.
Context {A K : Type}.
(** The key function, and the test [replaces knew kbest] that makes a
    later item take the place of the best one so far: [knew > kbest]
    for [max], [knew < kbest] for [min].  Both may raise. *)
Variable key : A -> result K.
Variable replaces : K -> K -> result bool.

Fixpoint extremum_loop (best : A) (kbest : K) (l : list A) : result A :=
  match l with
  | [] => Ok best
  | x :: l' =>
      kx ← key x;
      b ← replaces kx kbest;
      if b : bool then extremum_loop x kx l' else extremum_loop best kbest l'
  end.

(** [max(l, key=key)] or [min(l, key=key)] on a non-empty list: the
    first item is the best so far, the others are tried in order. *)
Definition extremum (first : A) (rest : list A) : result A :=
  k ← key first; extremum_loop first k rest.

(** What the result of [extremum] is to the list, for a test
    [better knew kbest] that cannot raise: [r] is an item of [l], every
    item has a key, and no item's key would replace the key of [r]. *)
Definition unbeaten_in (better : K -> K -> bool) (l : list A) (r : A) : Prop :=
  In r l /\ exists kr, key r = Ok kr /\
    forall y, In y l -> exists ky, key y = Ok ky /\ better ky kr = false.

(** The same with the place of [r]: the key of [r] would replace the key
    of every item before it, and no later item's key would replace it. *)
Definition first_unbeaten_in (better : K -> K -> bool) (l : list A) (r : A) : Prop :=
  exists before after kr,
    l = (before ++ r :: after)%list /\ key r = Ok kr
    /\ (forall y, In y before -> exists ky, key y = Ok ky /\ better kr ky = true)
    /\ (forall y, In y after -> exists ky, key y = Ok ky /\ better ky kr = false).
End Extrema.

(** ** mapper/purchase_analysis.py *)

Module Mapper.
Import PyFloat PyVal.

Inductive PurchaseState : Type := PURCHASED | REFUNDED.

Definition PurchaseState_eqb (a b : PurchaseState) : bool :=
  match a, b with
  | PURCHASED, PURCHASED | REFUNDED, REFUNDED => true
  | _, _ => false
  end.

Record PurchaseInfo : Type := {
  order_id : pyval;
  purchase_token : pyval;
  payload : pyval;
  package_name : pyval;
  purchase_state : PurchaseState;
  purchase_time : pyval;
  product_id : pyval;
  data_signature : string;
  original_json : string
}.

(** [data.get(k)] and [data.get(k, dflt)] on the value [json.loads]
    returned: only a [dict] has the method. *)
Definition get (data : pyval) (k : string) : result pyval :=
  match data with
  | PDict d => Ok (dict_get d k)
  | _ => Raise AttributeError
  end.

Definition get_default (data : pyval) (k : string) (dflt : pyval) : result pyval :=
  match data with
  | PDict d => Ok (dict_get_default d k dflt)
  | _ => Raise AttributeError
  end.

(** What [print] wrote, one entry per call. *)
Definition stdout : Type := list string.

(** The text of the warning, after its leading warning sign. *)
Definition placeholder_warning : string :=
  "Signature verification placeholder - not implemented!".

Section PurchaseMapper.
(** [json.loads] and the order [>] of the runtime on arbitrary values
    are library code: the mapper is parametric in them. *)
Variable json_loads : string -> result pyval.
Variable py_gt : pyval -> pyval -> result bool.

Definition map_to_purchase_info (purchase_data data_signature : string)
  : result PurchaseInfo :=
  data ← json_loads purchase_data;
  st ← get data "purchaseState";
  let purchase_state := if eq_zero st then PURCHASED else REFUNDED in
  oid ← get data "orderId";
  tok ← get data "purchaseToken";
  pl ← get data "developerPayload";
  pkg ← get data "packageName";
  tm ← get_default data "purchaseTime" (PInt 0);
  pid ← get data "productId";
  Ok {| order_id := oid;
        purchase_token := tok;
        payload := pl;
        package_name := pkg;
        purchase_state := purchase_state;
        purchase_time := tm;
        product_id := pid;
        data_signature := data_signature;
        original_json := purchase_data |}.

Fixpoint map_list (purchases : list (string * string)) : result (list PurchaseInfo) :=
  match purchases with
  | [] => Ok []
  | (data, sig) :: rest =>
      p ← map_to_purchase_info data sig;
      ps ← map_list rest;
      Ok (p :: ps)
  end.

Definition verify_purchase_signature (purchase_data signature public_key : string)
  : stdout * bool :=
  if negb (PyStr.truthy (PyStr.strip signature))
     || negb (PyStr.truthy (PyStr.strip purchase_data))
  then ([placeholder_warning], false)
  else ([], true).

Definition filter_by_state (purchases : list PurchaseInfo) (state : PurchaseState)
  : list PurchaseInfo :=
  List.filter (fun p => PurchaseState_eqb (purchase_state p) state) purchases.

(** [max(purchases, key=lambda p: p.purchase_time, default=None)] *)
Definition get_most_recent_purchase (purchases : list PurchaseInfo)
  : result (option PurchaseInfo) :=
  match purchases with
  | [] => Ok None
  | p :: rest =>
      r ← extremum (fun p => Ok (purchase_time p)) py_gt p rest;
      Ok (Some r)
  end.

Definition is_refunded (purchase_data : string) : result bool :=
  data ← json_loads purchase_data;
  st ← get data "purchaseState";
  Ok (negb (eq_zero st)).

Definition get_field (purchase_data field : string) : result pyval :=
  data ← json_loads purchase_data;
  get data field.

Definition is_purchase_for_product (purchase_data product : string) : result bool :=
  data ← json_loads purchase_data;
  v ← get data "productId";
  Ok (eq_str v product).
End PurchaseMapper.

(** The payload whose only field is [purchaseState], with the value [n]. *)
Definition dq : string := String (ascii_of_nat 34) EmptyString.
Definition payload_state (n : string) : string :=
  ("{" ++ dq ++ "purchaseState" ++ dq ++ ":" ++ n ++ "}")%string.

(** [json.loads] on the three payloads the examples use: the empty object,
    and the objects whose only field is [purchaseState], 0 or 1.  It stands
    for the library only in those examples. *)
(** The order [>] on two [int]s.  It stands for the runtime's order only
    where the examples compare integers. *)
Definition gt_on_ints (a b : pyval) : result bool :=
  match a, b with
  | PInt x, PInt y => Ok (y <? x)
  | _, _ => Raise TypeError
  end.

Definition example_loads (s : string) : result pyval :=
  if String.eqb s "{}" then Ok (PDict ∅)
  else if String.eqb s (payload_state "0") then Ok (PDict {[ "purchaseState" := PInt 0 ]})
  else if String.eqb s (payload_state "1") then Ok (PDict {[ "purchaseState" := PInt 1 ]})
  else Raise JSONDecodeError.

End Mapper.

(** ** entity/subscription_manager.py *)

Module Subscription.
Import PyFloat.

(** Modelled from the spec: the entity classes [PurchaseInfo], [SkuDetails]
    and [TrialSubscriptionInfo] that [SubscriptionManager] stores are not
    among the sources.  The spec's data model gives a purchase a state
    (PURCHASED or REFUNDED) and a product identifier, a SKU an identifier,
    a free-form price string and a type, and a trial an availability flag
    and a length in days. *)
Inductive PurchaseState : Type := PURCHASED | REFUNDED.

(** Modelled from the spec: the purchase record of the data model, with the
    fields the manager reads. *)
Record PurchaseInfo : Type := {
  order_id : string;
  purchase_state : PurchaseState;
  product_id : string
}.

(** Modelled from the spec: [p.is_refunded()] is missing with its class; the
    spec counts as refunded the purchases whose state is REFUNDED. *)
Definition is_refunded (p : PurchaseInfo) : bool :=
  match purchase_state p with REFUNDED => true | PURCHASED => false end.

(** Modelled from the spec: the SKU record of the data model. *)
Record SkuDetails : Type := {
  sku : string;
  price : string;
  type : string
}.

(** Modelled from the spec: the trial record of the data model. *)
Record TrialSubscriptionInfo : Type := {
  is_available : bool;
  trial_period_days : Z
}.

Record SubscriptionManager : Type := {
  purchases : list PurchaseInfo;
  skus : list SkuDetails;
  trials : list TrialSubscriptionInfo
}.

Definition init : SubscriptionManager :=
  {| purchases := []; skus := []; trials := [] |}.

Definition add_purchase (m : SubscriptionManager) (p : PurchaseInfo) : SubscriptionManager :=
  {| purchases := purchases m ++ [p]; skus := skus m; trials := trials m |}.

Definition add_sku (m : SubscriptionManager) (s : SkuDetails) : SubscriptionManager :=
  {| purchases := purchases m; skus := skus m ++ [s]; trials := trials m |}.

Definition add_trial (m : SubscriptionManager) (t : TrialSubscriptionInfo) : SubscriptionManager :=
  {| purchases := purchases m; skus := skus m; trials := trials m ++ [t] |}.

(** [sum(...)] over [int]s (a [bool] counts as 0 or 1). *)
Definition sum_int (l : list Z) : Z := fold_left Z.add l 0.

Definition len {A} (l : list A) : Z := Z.of_nat (length l).

Definition refund_ratio (m : SubscriptionManager) : result pyfloat :=
  match purchases m with
  | [] => Ok (Fin 0)
  | _ :: _ =>
      let refunded := sum_int (map (fun p => Z.b2z (is_refunded p)) (purchases m)) in
      truediv refunded (len (purchases m))
  end.

(** The characters [revenue_estimation] keeps of a product identifier. *)
Definition digit_or_dot (x : ascii) : bool := PyStr.isdigit x || PyStr.is_dot x.

(** The loop of [revenue_estimation]: an exception in the body leaves
    [total] as it was and goes on with the next purchase. *)
Fixpoint revenue_loop (total : pyfloat) (ps : list PurchaseInfo) : result pyfloat :=
  match ps with
  | [] => Ok total
  | p :: ps' =>
      match
        v ← float_of_digits_dots (PyStr.filter_chars digit_or_dot (product_id p));
        Ok (fadd total v)
      with
      | Ok total' => revenue_loop total' ps'
      | Raise _ => revenue_loop total ps'
      end
  end.

Definition revenue_estimation (m : SubscriptionManager) : result pyfloat :=
  revenue_loop (Fin 0) (purchases m).

Definition price_digits (s : SkuDetails) : string :=
  PyStr.filter_chars PyStr.isdigit (price s).

(** [float(digits or 0)] *)
Definition most_key (s : SkuDetails) : result pyfloat :=
  let d := price_digits s in
  if PyStr.truthy d then float_of_digits_dots d else float_of_int 0.

(** [float(digits or float('inf'))] *)
Definition least_key (s : SkuDetails) : result pyfloat :=
  let d := price_digits s in
  if PyStr.truthy d then float_of_digits_dots d else Ok PInf.

Definition most_expensive_sku (m : SubscriptionManager) : result (option SkuDetails) :=
  match skus m with
  | [] => Ok None
  | s :: rest =>
      r ← extremum most_key (fun knew kbest => Ok (fgt knew kbest)) s rest;
      Ok (Some r)
  end.

Definition least_expensive_sku (m : SubscriptionManager) : result (option SkuDetails) :=
  match skus m with
  | [] => Ok None
  | s :: rest =>
      r ← extremum least_key (fun knew kbest => Ok (flt knew kbest)) s rest;
      Ok (Some r)
  end.

(** [{s.sku: s.type for s in skus}]: a later SKU with the same identifier
    replaces an earlier one. *)
Definition sku_dict (l : list SkuDetails) : gmap string string :=
  fold_left (fun d s => <[sku s := type s]> d) l ∅.

(** One row of the data frame: the type looked up, and 0 or 1. *)
Definition row_of (d : gmap string string) (p : PurchaseInfo) : string * Z :=
  (default "unknown" (d !! product_id p), Z.b2z (is_refunded p)).

(** [df.groupby(col)[val].mean().to_dict()] on rows of integers: per key,
    the sum and the number of its rows, then their quotient as a float. *)
Definition group_step (g : gmap string (Z * Z)) (r : string * Z) : gmap string (Z * Z) :=
  let '(s, c) := default (0, 0) (g !! r.1) in <[r.1 := (s + r.2, c + 1)]> g.

Definition group_sums (rows : list (string * Z)) : gmap string (Z * Z) :=
  fold_left group_step rows ∅.

Definition groupby_mean (rows : list (string * Z)) : gmap string pyfloat :=
  (fun sc : Z * Z => rnd (Qmake sc.1 (Z.to_pos sc.2))) <$> group_sums rows.

Definition refund_probability_by_type (m : SubscriptionManager) : gmap string pyfloat :=
  match purchases m, skus m with
  | [], _ | _, [] => ∅
  | _ :: _, _ :: _ => groupby_mean (map (row_of (sku_dict (skus m))) (purchases m))
  end.

Definition average_trial_days (m : SubscriptionManager) : result pyfloat :=
  match trials m with
  | [] => Ok (Fin 0)
  | _ :: _ => truediv (sum_int (map trial_period_days (trials m))) (len (trials m))
  end.

Section MissingMethods.
(** Modelled from the spec: [s.is_subscription()] and [t.can_use_trial()]
    are missing with their classes; each is taken as a parameter that
    answers with a [bool]. *)
Variable is_subscription : SkuDetails -> bool.
Variable can_use_trial : TrialSubscriptionInfo -> bool.

(** The [dict] returned, with its two keys in order. *)
Definition subscription_vs_one_time (m : SubscriptionManager) : list (string * Z) :=
  let subs := sum_int (map (fun s => Z.b2z (is_subscription s)) (skus m)) in
  let one_time := len (skus m) - subs in
  [("subscription", subs); ("one_time", one_time)].

Definition available_trials_count (m : SubscriptionManager) : Z :=
  sum_int (map (fun t => Z.b2z (can_use_trial t)) (trials m)).
End MissingMethods.

(** *** Quantities the properties below speak of *)

(** The number of refunded purchases. *)
Definition refunded_count (m : SubscriptionManager) : Z :=
  len (List.filter is_refunded (purchases m)).

(** The number read off the digits of a price: its decimal digits
    concatenated, as an integer (0 when there is none). *)
Definition digit_number (s : SkuDetails) : Z := PyStr.decimal_value (price_digits s).

(** Every digit character of the price is a decimal digit, one that
    [float] reads: the price has no digit character that [float] rejects. *)
Definition decimal_price (s : SkuDetails) : bool :=
  PyStr.all_chars PyStr.isdecimal (price_digits s).

Definition has_digits (s : SkuDetails) : bool := PyStr.truthy (price_digits s).

(** The value [revenue_estimation] reads off a product identifier, when
    there is one. *)
Definition numeric_value (pid : string) : option pyfloat :=
  match float_of_digits_dots (PyStr.filter_chars digit_or_dot pid) with
  | Ok v => Some v
  | Raise _ => None
  end.

(** The floating-point sum of a list, from the left, from 0.0 *)
Definition fsum (l : list pyfloat) : pyfloat := fold_left fadd l (Fin 0).

(** The rows of one key: how many, and the sum of their values. *)
Definition rows_count (rows : list (string * Z)) (t : string) : Z :=
  len (List.filter (fun r => String.eqb r.1 t) rows).

Definition rows_sum (rows : list (string * Z)) (t : string) : Z :=
  fold_right Z.add 0 (map snd (List.filter (fun r => String.eqb r.1 t) rows)).

(** The type a purchase is counted under. *)
Definition looked_up_type (m : SubscriptionManager) (p : PurchaseInfo) : string :=
  default "unknown" (sku_dict (skus m) !! product_id p).

Definition count_of_type (m : SubscriptionManager) (t : string) : Z :=
  len (List.filter (fun p => String.eqb (looked_up_type m p) t) (purchases m)).

Definition refunded_of_type (m : SubscriptionManager) (t : string) : Z :=
  len (List.filter (fun p => String.eqb (looked_up_type m p) t && is_refunded p) (purchases m)).

End Subscription.

(** ** exception/android_exception_manager.py *)

Module Exceptions.
Local Open Scope list_scope.

(** A [str] here is the list of its code points.  A surrogate, U+D800 to
    U+DFFF, can stand in a [str] on its own, and is what cannot be encoded
    when a text is written to a file. *)
Definition pystr : Type := list N.

(** The [str] of a literal. *)
Definition str (s : string) : pystr := map N_of_ascii (list_ascii_of_string s).

(** [a == b] on two [str]. *)
Fixpoint str_eqb (a b : pystr) : bool :=
  match a, b with
  | [], [] => true
  | x :: a', y :: b' => (x =? y)%N && str_eqb a' b'
  | _, _ => false
  end.

(** A naive [datetime], as [datetime.datetime.now()] returns it. *)
Record datetime : Type := {
  year : Z; month : Z; day : Z;
  hour : Z; minute : Z; second : Z; microsecond : Z
}.

Definition digit_char (d : Z) : N := Z.to_N (48 + d mod 10).

(** The last [w] decimal digits of [n], zero-padded: [n] written in [w]
    places when [0 <= n < 10^w]. *)
Fixpoint zfill (w : nat) (n : Z) : pystr :=
  match w with
  | O => []
  | S w' => zfill w' (n / 10) ++ [digit_char n]
  end.

(** [datetime.isoformat()]: the microseconds are left out when they are 0. *)
Definition isoformat (t : datetime) : pystr :=
  zfill 4 (year t) ++ str "-" ++ zfill 2 (month t) ++ str "-" ++ zfill 2 (day t) ++ str "T"
  ++ zfill 2 (hour t) ++ str ":" ++ zfill 2 (minute t) ++ str ":" ++ zfill 2 (second t)
  ++ (if microsecond t =? 0 then [] else str "." ++ zfill 6 (microsecond t)).

Record AndroidException : Type := {
  name : pystr;
  message : pystr;
  type : pystr;
  timestamp : datetime
}.

(** The constructor takes the time of the call from the clock. *)
Definition new (now : datetime) (name message type_ : pystr) : AndroidException :=
  {| name := name; message := message; type := type_; timestamp := now |}.

(** A [dict] with its keys in insertion order. *)
Definition to_dict (ex : AndroidException) : list (pystr * pystr) :=
  [(str "name", name ex); (str "message", message ex); (str "type", type ex);
   (str "timestamp", isoformat (timestamp ex))].

Record ExceptionManager : Type := { exceptions : list AndroidException }.

Definition init : ExceptionManager := {| exceptions := [] |}.

Definition add_exception (m : ExceptionManager) (ex : AndroidException) : ExceptionManager :=
  {| exceptions := exceptions m ++ [ex] |}.

(** *** Text files

    A file opened with [encoding="utf-8"] encodes each text as it is
    written.  A surrogate has no UTF-8 encoding: the [write] that meets
    one raises [UnicodeEncodeError] and adds nothing to the file, and what
    was written before it stays. *)

Definition is_surrogate (c : N) : bool := ((0xD800 <=? c) && (c <=? 0xDFFF))%N.

Definition encodable (s : pystr) : bool := forallb (fun c => negb (is_surrogate c)) s.

(** [f.write(text)], on the text the file holds so far. *)
Definition write (written text : pystr) : pystr * result unit :=
  if encodable text then (written ++ text, Ok tt) else (written, Raise UnicodeEncodeError).

(** *** The [csv] writer

    The default dialect: fields separated by a comma, a field quoted when
    it holds a comma, a quote, a carriage return or a line feed, a quote
    inside a quoted field written twice, lines ended by CR LF. *)

Definition quote_char : N := 34%N.
Definition comma : N := 44%N.
Definition crlf : pystr := [13; 10]%N.

Definition needs_quote (c : N) : bool :=
  ((c =? 44) || (c =? 34) || (c =? 13) || (c =? 10))%N.

Fixpoint double_quotes (s : pystr) : pystr :=
  match s with
  | [] => []
  | c :: s' =>
      if (c =? 34)%N then c :: c :: double_quotes s'
      else c :: double_quotes s'
  end.

Definition csv_field (s : pystr) : pystr :=
  if existsb needs_quote s
  then quote_char :: double_quotes s ++ [quote_char]
  else s.

Fixpoint join (sep : pystr) (l : list pystr) : pystr :=
  match l with
  | [] => []
  | [x] => x
  | x :: l' => x ++ sep ++ join sep l'
  end.

(** One line of the file.  A row whose only field is empty is written as a
    pair of quotes. *)
Definition csv_line (fields : list pystr) : pystr :=
  match fields with
  | [[]] => [quote_char; quote_char] ++ crlf
  | _ => join [comma] (map csv_field fields) ++ crlf
  end.

Fixpoint assoc (k : pystr) (d : list (pystr * pystr)) : option pystr :=
  match d with
  | [] => None
  | (k', v) :: d' => if str_eqb k k' then Some v else assoc k d'
  end.

(** [DictWriter.writerow]: a key outside the field names is an error, a
    field name the row lacks is written empty; the line is written to the
    file at once. *)
Definition writerow (fieldnames : list pystr) (row : list (pystr * pystr)) (written : pystr)
  : pystr * result unit :=
  if forallb (fun k => existsb (str_eqb k) fieldnames) (map fst row)
  then write written (csv_line (map (fun k => default [] (assoc k row)) fieldnames))
  else (written, Raise ValueError).

(** [DictWriter.writeheader]: the row that gives each field its own name. *)
Definition writeheader (fieldnames : list pystr) (written : pystr) : pystr * result unit :=
  writerow fieldnames (map (fun k => (k, k)) fieldnames) written.

(** The loop over the exceptions: it stops at the first row that raises. *)
Fixpoint writerows (fieldnames : list pystr) (l : list AndroidException) (written : pystr)
  : pystr * result unit :=
  match l with
  | [] => (written, Ok tt)
  | ex :: l' =>
      match writerow fieldnames (to_dict ex) written with
      | (w, Ok _) => writerows fieldnames l' w
      | (w, Raise e) => (w, Raise e)
      end
  end.

(** The files, by path, with their text. *)
Abbreviation filesystem := (gmap string pystr).

(** [open(filepath, "w")] creates or empties the file as soon as it runs;
    an error while writing leaves in the file what was written before it,
    and goes on to the caller. *)
Definition save_to_csv (m : ExceptionManager) (filepath : string) (fs : filesystem)
  : filesystem * result unit :=
  match exceptions m with
  | [] => (fs, Ok tt)
  | ex0 :: _ =>
      let keys := map fst (to_dict ex0) in
      let '(text, r) :=
        match writeheader keys [] with
        | (w, Ok _) => writerows keys (exceptions m) w
        | (w, Raise e) => (w, Raise e)
        end in
      (<[filepath := text]> fs, r)
  end.

(** *** Counting by type

    A [Counter], and the [dict] made of it, keep their keys in the order
    in which they were first counted. *)

Fixpoint counter_add (c : list (pystr * Z)) (k : pystr) : list (pystr * Z) :=
  match c with
  | [] => [(k, 1)]
  | (k', n) :: c' =>
      if str_eqb k k' then (k', n + 1) :: c' else (k', n) :: counter_add c' k
  end.

(** [Counter(keys)] *)
Definition Counter (keys : list pystr) : list (pystr * Z) :=
  fold_left counter_add keys [].

(** [d.get(k)] on such a [dict] *)
Fixpoint lookup_count (k : pystr) (c : list (pystr * Z)) : option Z :=
  match c with
  | [] => None
  | (k', n) :: c' => if str_eqb k k' then Some n else lookup_count k c'
  end.

Definition exception_frequency (m : ExceptionManager) : list (pystr * Z) :=
  Counter (map type (exceptions m)).

(** How many times [k] occurs in [keys]. *)
Definition occurrences (k : pystr) (keys : list pystr) : Z :=
  Z.of_nat (length (List.filter (str_eqb k) keys)).

(** The number of exceptions of type [t]. *)
Definition count_of_type (m : ExceptionManager) (t : pystr) : Z :=
  occurrences t (map type (exceptions m)).

(** *** The [json] encoder

    With [ensure_ascii], the default: inside a string a quote and a
    backslash are escaped with a backslash, the controls BS, HT, LF, FF and
    CR are written with their letters, and the printable ASCII characters
    U+0020 to U+007E as they are.  Every other character up to U+FFFF is
    written with its four hexadecimal digits, in lower case, and a
    character above U+FFFF as the two surrogates of its UTF-16 form, each
    with its four digits. *)

Definition hex_digit (n : N) : N := (if n <? 10 then 48 + n else 87 + n)%N.

Definition backslash : N := 92%N.

(** [\uXXXX] *)
Definition u_escape (v : N) : pystr :=
  [backslash; 117%N; hex_digit (v / 4096 mod 16); hex_digit (v / 256 mod 16);
   hex_digit (v / 16 mod 16); hex_digit (v mod 16)].

(** The surrogates of a code point above U+FFFF: [0xd800 | ((n >> 10) & 0x3ff)]
    and [0xdc00 | (n & 0x3ff)] for [n = c - 0x10000]. *)
Definition high_surrogate (c : N) : N := (0xD800 + ((c - 0x10000) / 1024) mod 1024)%N.
Definition low_surrogate (c : N) : N := (0xDC00 + (c - 0x10000) mod 1024)%N.

Definition json_escape_char (c : N) : pystr :=
  if (c =? 34)%N then [backslash; quote_char]
  else if (c =? 92)%N then [backslash; backslash]
  else if (c =? 8)%N then [backslash; 98%N]
  else if (c =? 9)%N then [backslash; 116%N]
  else if (c =? 10)%N then [backslash; 110%N]
  else if (c =? 12)%N then [backslash; 102%N]
  else if (c =? 13)%N then [backslash; 114%N]
  else if ((32 <=? c) && (c <=? 126))%N then [c]
  else if (c <? 0x10000)%N then u_escape c
  else u_escape (high_surrogate c) ++ u_escape (low_surrogate c).

Fixpoint json_escape (s : pystr) : pystr :=
  match s with
  | [] => []
  | c :: s' => json_escape_char c ++ json_escape s'
  end.

Definition json_string (s : pystr) : pystr :=
  quote_char :: json_escape s ++ [quote_char].

Definition json_item (kv : pystr * pystr) : pystr :=
  json_string kv.1 ++ str ": " ++ json_string kv.2.

Definition newline : pystr := [10%N].

(** Four spaces for each level of nesting. *)
Fixpoint indentation (level : nat) : pystr :=
  match level with
  | O => []
  | S l => str "    " ++ indentation l
  end.

(** [json.dumps(d)] of a [dict] of strings. *)
Definition dumps (d : list (pystr * pystr)) : pystr :=
  str "{" ++ join (str ", ") (map json_item d) ++ str "}".

(** [json.dumps(d, indent=4)] of a [dict] of strings, written at the
    given level of nesting. *)
Definition dumps_indent (level : nat) (d : list (pystr * pystr)) : pystr :=
  match d with
  | [] => str "{}"
  | _ :: _ =>
      str "{" ++ newline ++ indentation (S level)
      ++ join (str "," ++ newline ++ indentation (S level)) (map json_item d)
      ++ newline ++ indentation level ++ str "}"
  end.

(** [json.dumps(l, indent=4)] of a [list] of such [dict]s. *)
Definition dumps_list_indent (l : list (list (pystr * pystr))) : pystr :=
  match l with
  | [] => str "[]"
  | _ :: _ =>
      str "[" ++ newline ++ indentation 1
      ++ join (str "," ++ newline ++ indentation 1) (map (dumps_indent 1) l)
      ++ newline ++ str "]"
  end.

Definition to_json (ex : AndroidException) (pretty : bool) : pystr :=
  if pretty then dumps_indent 0 (to_dict ex) else dumps (to_dict ex).

(** [json.dump] writes the text of [json.dumps] to the file piece by
    piece; the pieces are written here as one text. *)
Definition save_to_json (m : ExceptionManager) (filepath : string) (fs : filesystem)
  : filesystem * result unit :=
  let '(text, r) := write [] (dumps_list_indent (map to_dict (exceptions m))) in
  (<[filepath := text]> fs, r).

(** *** What the properties speak of *)

(** Printable ASCII, U+0020 to U+007E, and the line feed. *)
Definition printable (c : N) : bool := ((32 <=? c) && (c <=? 126))%N.

Definition is_newline (c : N) : bool := (c =? 10)%N.

Definition printable_or_newline (c : N) : bool := printable c || is_newline c.

Definition count_chars (f : N -> bool) (s : pystr) : nat := length (List.filter f s).

(** A code point that stands for a character: up to U+10FFFF and no
    surrogate.  The [str] read from well-formed UTF-8 has no other. *)
Definition scalar (c : N) : bool := ((c <=? 0x10FFFF) && negb (is_surrogate c))%N.

(** The three texts of an exception hold characters only. *)
Definition well_formed (ex : AndroidException) : bool :=
  forallb scalar (name ex) && forallb scalar (message ex) && forallb scalar (type ex).

(** The three texts of an exception can be encoded. *)
Definition encodable_exception (ex : AndroidException) : bool :=
  encodable (name ex) && encodable (message ex) && encodable (type ex).

(** Reading back the first character of an escaped text, as a JSON parser
    does: nothing at the quote that ends a string, the character and the
    rest of the text otherwise; a high surrogate and the low one after it
    make one character. *)
Definition hex_value (c : N) : N := (if c <? 58 then c - 48 else c - 87)%N.

Definition hex4 (a b c d : N) : N :=
  (4096 * hex_value a + 256 * hex_value b + 16 * hex_value c + hex_value d)%N.

Definition json_unescape_head (s : pystr) : option (N * pystr) :=
  match s with
  | [] => None
  | c :: r =>
      if (c =? 34)%N then None
      else if (c =? 92)%N then
        match r with
        | x :: r' =>
            if (x =? 98)%N then Some (8%N, r')
            else if (x =? 116)%N then Some (9%N, r')
            else if (x =? 110)%N then Some (10%N, r')
            else if (x =? 102)%N then Some (12%N, r')
            else if (x =? 114)%N then Some (13%N, r')
            else if (x =? 117)%N then
              match r' with
              | h3 :: h2 :: h1 :: h0 :: r'' =>
                  let v := hex4 h3 h2 h1 h0 in
                  if ((0xD800 <=? v) && (v <? 0xDC00))%N then
                    match r'' with
                    | _ :: _ :: l3 :: l2 :: l1 :: l0 :: r''' =>
                        Some ((0x10000 + (v - 0xD800) * 1024
                               + (hex4 l3 l2 l1 l0 - 0xDC00))%N, r''')
                    | _ => None
                    end
                  else Some (v, r'')
              | _ => None
              end
            else Some (x, r')
        | [] => None
        end
      else Some (c, r)
  end.

(** The rows of the file [save_to_csv] writes. *)
Definition csv_header : list pystr :=
  [str "name"; str "message"; str "type"; str "timestamp"].

Definition csv_row (ex : AndroidException) : list pystr :=
  [name ex; message ex; type ex; isoformat (timestamp ex)].

(** The line of an exception, written out: its name, its message and its
    type, each in quotes when it needs them, and its timestamp, with a
    comma between two fields and CR LF at the end. *)
Definition csv_record (ex : AndroidException) : pystr :=
  csv_field (name ex) ++ [comma] ++ csv_field (message ex) ++ [comma]
  ++ csv_field (type ex) ++ [comma] ++ isoformat (timestamp ex) ++ crlf.

(** The header line, written out. *)
Definition csv_header_line : pystr := str "name,message,type,timestamp" ++ crlf.

(** The exceptions before the first one that cannot be encoded. *)
Fixpoint encodable_prefix (l : list AndroidException) : list AndroidException :=
  match l with
  | [] => []
  | ex :: l' => if encodable_exception ex then ex :: encodable_prefix l' else []
  end.

End Exceptions.


(** ** Sample collections *)

Module Samples.
Import Subscription.

(** Two purchased and two refunded purchases. *)
Definition two_and_two : SubscriptionManager :=
  {| purchases :=
       [ {| order_id := "1"; purchase_state := PURCHASED; product_id := "gold" |};
         {| order_id := "2"; purchase_state := REFUNDED; product_id := "gold" |};
         {| order_id := "3"; purchase_state := REFUNDED; product_id := "silver" |};
         {| order_id := "4"; purchase_state := PURCHASED; product_id := "gold" |} ];
     skus := []; trials := [] |}.


(** Identifiers of the kind the script uses: "com.app.gold" leaves two
    dots and is skipped, "pack10" counts 10 and "x1.5" counts 1.5. *)
Definition three_products : SubscriptionManager :=
  {| purchases :=
       [ {| order_id := "1"; purchase_state := PURCHASED; product_id := "pack10" |};
         {| order_id := "2"; purchase_state := PURCHASED; product_id := "com.app.gold" |};
         {| order_id := "3"; purchase_state := REFUNDED; product_id := "x1.5" |} ];
     skus := []; trials := [] |}.


(** Identifiers that give whole numbers, 10 and 25, and one that gives
    nothing. *)
Definition whole_products : SubscriptionManager :=
  {| purchases :=
       [ {| order_id := "1"; purchase_state := PURCHASED; product_id := "pack10" |};
         {| order_id := "2"; purchase_state := PURCHASED; product_id := "com.app.gold" |};
         {| order_id := "3"; purchase_state := REFUNDED; product_id := "gems25" |} ];
     skus := []; trials := [] |}.

Definition whole_value (p : PurchaseInfo) : Z :=
  if String.eqb (product_id p) "pack10" then 10
  else if String.eqb (product_id p) "gems25" then 25 else 0.

Definition sku_of (id price_ : string) : SkuDetails :=
  {| sku := id; price := price_; type := "one-time" |}.

Definition with_skus (l : list SkuDetails) : SubscriptionManager :=
  {| purchases := []; skus := l; trials := [] |}.

(** The two prices of the documented example. *)
Definition monthly : SkuDetails := sku_of "monthly" "$9.99".
Definition yearly : SkuDetails := sku_of "yearly" "$19.99".

(** A price per square metre, written with the superscript two (U+00B2). *)
Definition superscript_two : ascii := ascii_of_nat 178.
Definition per_area : SkuDetails :=
  sku_of "land" ("9.99/m" ++ String superscript_two EmptyString).

(** Two prices one apart, [2^53] and [2^53 + 1]. *)
Definition plan_a : SkuDetails := sku_of "a" "9007199254740992".
Definition plan_b : SkuDetails := sku_of "b" "9007199254740993".

(** A price without a digit, and a price of 310 digits. *)
Definition trial_plan : SkuDetails := sku_of "trial" "free".
Definition vault_plan : SkuDetails := sku_of "vault" (String "1" (PyStr.repeat_char "0" 309)).

End Samples.

Module ExceptionSamples.
Import Exceptions.

Definition noon : datetime :=
  {| year := 2025; month := 3; day := 7;
     hour := 12; minute := 0; second := 5; microsecond := 1234 |}.

(** Two of the exceptions the script reports. *)
Definition reported : ExceptionManager :=
  add_exception
    (add_exception init
       (new noon (str "BazaarNotSupportedException") (str "Bazaar is not updated")
            (str "IllegalStateException")))
    (new noon (str "ConsumeFailedException") (str "Consume request failed")
         (str "RemoteException")).

(** An exception whose message needs quotes in a CSV file. *)
Definition disconnected : AndroidException :=
  new noon (str "DisconnectException") (str "gone, again") (str "A").

(** An exception whose name is a surrogate on its own, U+D800. *)
Definition lone_surrogate : AndroidException :=
  new noon [0xD800%N] (str "m") (str "T").

(** An exception whose name is the character U+1F600, and one whose name
    is the two surrogates of its UTF-16 form. *)
Definition astral : AndroidException := new noon [0x1F600%N] (str "m") (str "T").

Definition surrogate_pair : AndroidException :=
  new noon [0xD83D%N; 0xDE00%N] (str "m") (str "T").

(** An exception whose name is the next character, U+1F601. *)
Definition astral_next : AndroidException := new noon [0x1F601%N] (str "m") (str "T").

(** Three exceptions, the second of which cannot be written to a file. *)
Definition with_lone_surrogate : ExceptionManager :=
  {| exceptions := [disconnected; lone_surrogate; astral] |}.

End ExceptionSamples.

Module MapperSamples.
Import PyVal Mapper.

(** A record of the mapper with the given order identifier and time. *)
Definition bought (id : string) (time : Z) : PurchaseInfo :=
  {| order_id := PStr id; purchase_token := PNone; payload := PNone;
     package_name := PNone; purchase_state := PURCHASED;
     purchase_time := PInt time; product_id := PStr "gold";
     data_signature := "FAKE_SIGNATURE"; original_json := "{}" |}.

Definition int_time (p : PurchaseInfo) : Z :=
  match purchase_time p with PInt z => z | _ => 0 end.

End MapperSamples.
(** * Properties *)

(** ** Strings *)

Module PyStrFacts.
Import PyStr.

Lemma rstrip_nonspace c s : isspace c = false -> truthy (rstrip (String c s)) = true.
Proof.
  intros Hc. simpl. destruct (rstrip s); [rewrite Hc|]; reflexivity.
Qed.

Lemma lstrip_blank s : blank s = true -> lstrip s = EmptyString.
Proof.
  unfold blank. induction s as [|c s IH]; simpl; [reflexivity|].
  intros [Hc Hs]%andb_prop. rewrite Hc. auto.
Qed.

Lemma lstrip_not_blank s :
  blank s = false -> exists c s', lstrip s = String c s' /\ isspace c = false.
Proof.
  unfold blank. induction s as [|c s IH]; simpl; [discriminate|].
  destruct (isspace c) eqn:Hc; simpl; [exact IH|].
  intros _. exists c, s. split; [reflexivity | exact Hc].
Qed.

(** [s.strip()] is falsy exactly when [s] is blank. *)
Lemma strip_truthy s : truthy (strip s) = negb (blank s).
Proof.
  unfold strip. destruct (blank s) eqn:Hb.
  - rewrite (lstrip_blank _ Hb). reflexivity.
  - destruct (lstrip_not_blank _ Hb) as (c & s' & -> & Hc).
    now rewrite rstrip_nonspace.
Qed.

Lemma isdecimal_not_dot c : isdecimal c = true -> is_dot c = false.
Proof.
  unfold isdecimal, is_dot. intros [H1 H2]%andb_prop.
  apply Z.leb_le in H1. apply Z.eqb_neq. lia.
Qed.

Lemma split_dot_decimal s :
  all_chars isdecimal s = true -> split_dot s = (s, None).
Proof.
  induction s as [|c s IH]; cbn; [reflexivity|].
  intros [Hc Hs]%andb_prop. rewrite (isdecimal_not_dot _ Hc), (IH Hs). reflexivity.
Qed.

Lemma isdigit_not_dot c : isdigit c = true -> is_dot c = false.
Proof.
  unfold isdigit, is_dot. intros H. apply Z.eqb_neq. intros Heq.
  rewrite Heq in H. discriminate H.
Qed.

Lemma split_dot_digits s :
  all_chars isdigit s = true -> split_dot s = (s, None).
Proof.
  induction s as [|c s IH]; cbn; [reflexivity|].
  intros [Hc Hs]%andb_prop. rewrite (isdigit_not_dot _ Hc), (IH Hs). reflexivity.
Qed.

Lemma filter_chars_all f s : all_chars f (filter_chars f s) = true.
Proof.
  induction s as [|c s IH]; cbn; [reflexivity|].
  destruct (f c) eqn:Hc; cbn; [rewrite Hc|]; exact IH.
Qed.

(** A digit character outside 0 to 9 makes [float] fail. *)
Lemma float_of_digits_not_decimal s :
  all_chars isdigit s = true -> all_chars isdecimal s = false ->
  PyFloat.float_of_digits_dots s = Raise ValueError.
Proof.
  intros Hd Hn. unfold PyFloat.float_of_digits_dots.
  rewrite (split_dot_digits _ Hd), Hn. reflexivity.
Qed.

Lemma append_empty_r s : (s ++ EmptyString)%string = s.
Proof.
  induction s as [|c s IH]; [reflexivity|].
  change (String c (s ++ EmptyString)%string = String c s). now rewrite IH.
Qed.

Lemma decimal_value_from_nonneg acc s :
  all_chars isdecimal s = true -> 0 <= acc -> 0 <= decimal_value_from acc s.
Proof.
  revert acc. induction s as [|c s IH]; cbn; intros acc; [auto|].
  intros [Hc Hs]%andb_prop Hacc. apply IH; [exact Hs|].
  unfold isdecimal in Hc. apply andb_prop in Hc as [H1 _]. apply Z.leb_le in H1. lia.
Qed.

Lemma decimal_value_nonneg s : all_chars isdecimal s = true -> 0 <= decimal_value s.
Proof. intros H. apply decimal_value_from_nonneg; [exact H | lia]. Qed.

(** [float] on a non-empty run of decimal digits: the integer it spells,
    rounded. *)
Lemma float_of_decimal_digits s :
  all_chars isdecimal s = true -> truthy s = true ->
  PyFloat.float_of_digits_dots s =
  Ok (PyFloat.rnd (inject_Z (decimal_value s))).
Proof.
  intros Hd Ht. unfold PyFloat.float_of_digits_dots. rewrite (split_dot_decimal _ Hd).
  rewrite append_empty_r, Hd, Ht. reflexivity.
Qed.

End PyStrFacts.

(** ** Floats *)

Module PyFloatFacts.
Import PyFloat.

Lemma Qred_inject_Z n : Qred (inject_Z n) = inject_Z n.
Proof. apply Qcanon.Qred_identity. simpl. apply Z.gcd_1_r. Qed.

Lemma floor_log2_int n : 0 < n -> floor_log2 n 1 = Z.log2 n.
Proof.
  intros Hn. unfold floor_log2. change (Z.log2 1) with 0. rewrite Z.sub_0_r.
  pose proof (Z.log2_nonneg n) as Hl.
  pose proof (Z.log2_spec n Hn) as [Hlo _].
  rewrite (Z.max_l 0 (- Z.log2 n)) by lia. rewrite (Z.max_r 0 (Z.log2 n)) by lia.
  destruct (Z.ltb_spec (n * 2 ^ 0) (1 * 2 ^ Z.log2 n)); [|reflexivity].
  change (2 ^ 0) with 1 in *. lia.
Qed.

Lemma floor_log2_le p d : floor_log2 p d <= Z.log2 p - Z.log2 d.
Proof. unfold floor_log2. destruct (_ <? _); lia. Qed.

Lemma round_half_even_1 n : round_half_even n 1 = n.
Proof. unfold round_half_even. rewrite Z.mod_1_r, Z.div_1_r. reflexivity. Qed.

(** Below the exponent 1023 nothing rounds to infinity. *)
Lemma binary64_of_pos_finite p d :
  Z.log2 p - Z.log2 d < 1023 -> exists q, binary64_of_pos p d = Fin q.
Proof.
  intros Hl. unfold binary64_of_pos. pose proof (floor_log2_le p d) as Hf.
  set (e := Z.max (floor_log2 p d) (-1022)). assert (e < 1023) as He by (subst e; lia).
  destruct (Z.leb_spec 1024 e); [lia|]. destruct (Z.eqb_spec e 1023); [lia|].
  cbn [orb andb]. eauto.
Qed.

(** An integer of at most 53 bits is its own float. *)
Lemma binary64_of_int_small n :
  0 < n < 2 ^ 53 -> binary64_of_pos n 1 = Fin (inject_Z n).
Proof.
  intros [Hn Hlt]. unfold binary64_of_pos. rewrite floor_log2_int by assumption.
  pose proof (Z.log2_nonneg n) as Hl.
  assert (Z.log2 n < 53) as Hl53 by (apply Z.log2_lt_pow2; assumption).
  rewrite (Z.max_l (Z.log2 n)) by lia.
  set (s := 52 - Z.log2 n).
  rewrite (Z.max_r 0 s), (Z.max_l 0 (- s)) by (subst s; lia).
  change (2 ^ 0) with 1. rewrite !Z.mul_1_r, round_half_even_1.
  destruct (Z.leb_spec 1024 (Z.log2 n)); [lia|].
  destruct (Z.eqb_spec (Z.log2 n) 1023); [lia|]. cbn [orb andb].
  f_equal. rewrite <- Qred_inject_Z. apply Qred_complete.
  assert (0 < 2 ^ s) by (apply Z.pow_pos_nonneg; subst s; lia).
  unfold Qeq, inject_Z. cbn [Qnum Qden]. rewrite Z2Pos.id by assumption. lia.
Qed.

Lemma rnd_int_exact n : 0 <= n < 2 ^ 53 -> rnd (inject_Z n) = Fin (inject_Z n).
Proof.
  intros [Hn Hlt]. unfold rnd. cbn [inject_Z Qnum Qden].
  destruct n as [|p|p]; [reflexivity| |lia].
  apply binary64_of_int_small. lia.
Qed.

Lemma rnd_int_finite n : 0 <= n < 2 ^ 1023 -> exists q, rnd (inject_Z n) = Fin q.
Proof.
  intros [Hn Hlt]. unfold rnd. cbn [inject_Z Qnum Qden].
  destruct n as [|p|p]; [now exists 0%Q| |lia].
  apply binary64_of_pos_finite. change (Z.log2 1) with 0.
  assert (Z.log2 (Z.pos p) < 1023) by (apply Z.log2_lt_pow2; lia). lia.
Qed.

(** A quotient of at most 1 does not overflow. *)
Lemma rnd_ratio_finite a b :
  0 <= a <= b -> 0 < b -> exists q, rnd (Qmake a (Z.to_pos b)) = Fin q.
Proof.
  intros [Ha Hab] Hb. unfold rnd. cbn [Qnum Qden].
  destruct a as [|p|p]; [now exists 0%Q| |lia].
  apply binary64_of_pos_finite. rewrite Z2Pos.id by assumption.
  pose proof (Z.log2_le_mono _ _ Hab). lia.
Qed.

Lemma round_half_even_error n d :
  0 < d -> 2 * Z.abs (round_half_even n d * d - n) <= d.
Proof.
  intros Hd. unfold round_half_even.
  pose proof (Z.div_mod n d ltac:(lia)) as Hdm.
  pose proof (Z.mod_pos_bound n d Hd) as Hr.
  destruct (Z.compare_spec (2 * (n mod d)) d) as [Heq|Hlt|Hgt].
  - destruct (Z.even (n / d)); nia.
  - nia.
  - nia.
Qed.

(** For a quotient of at most 1, [floor_log2 p d] is not positive and
    [2 ^ floor_log2 p d <= p / d]. *)
Lemma floor_log2_lower p d :
  0 < p <= d -> floor_log2 p d <= 0 /\ d <= p * 2 ^ (- floor_log2 p d).
Proof.
  intros [Hp Hpd]. unfold floor_log2.
  pose proof (Z.log2_le_mono _ _ Hpd) as Hmono.
  pose proof (Z.log2_spec p Hp) as [Hp1 Hp2].
  pose proof (Z.log2_spec d ltac:(lia)) as [Hd1 Hd2].
  pose proof (Z.log2_nonneg p). pose proof (Z.log2_nonneg d).
  set (e0 := Z.log2 p - Z.log2 d) in *.
  rewrite (Z.max_r 0 (- e0)), (Z.max_l 0 e0) by lia. change (2 ^ 0) with 1.
  destruct (Z.ltb_spec (p * 2 ^ (- e0)) (d * 1)) as [Hlt|Hge].
  - split; [lia|].
    replace (- (e0 - 1)) with (Z.succ (Z.log2 d) - Z.log2 p) by (subst e0; lia).
    assert (2 ^ Z.log2 p * 2 ^ (Z.succ (Z.log2 d) - Z.log2 p)
            = 2 ^ Z.succ (Z.log2 d)) as Hpow
      by (rewrite <- Z.pow_add_r by lia; f_equal; lia).
    assert (0 < 2 ^ (Z.succ (Z.log2 d) - Z.log2 p))
      by (apply Z.pow_pos_nonneg; lia).
    nia.
  - split; lia.
Qed.

(** The float of a quotient [p / d] of at most 1 is within the relative
    error [2^-53] of it, as the nearest binary64 value is. *)
Lemma rnd_ratio_error p d :
  0 < p <= d -> d < 2 ^ 1022 ->
  exists v,
    rnd (Qmake p (Z.to_pos d)) = Fin v
    /\ (Qabs (v - Qmake p (Z.to_pos d)) * inject_Z (2 ^ 53)
        <= Qmake p (Z.to_pos d))%Q.
Proof.
  intros [Hp Hpd] Hd.
  destruct (floor_log2_lower p d (conj Hp Hpd)) as [Hf0 Hflo].
  assert (-1022 <= floor_log2 p d) as Hf1.
  { unfold floor_log2. pose proof (Z.log2_nonneg p).
    assert (Z.log2 d < 1022) by (apply Z.log2_lt_pow2; lia).
    destruct (_ <? _); lia. }
  unfold rnd. cbn [Qnum Qden]. destruct p as [|p|p]; [lia| |lia].
  unfold binary64_of_pos. rewrite Z2Pos.id by lia.
  set (f := floor_log2 (Z.pos p) d) in *.
  rewrite (Z.max_l f (-1022)) by lia.
  set (s := 52 - f). rewrite (Z.max_r 0 s), (Z.max_l 0 (- s)) by (subst s; lia).
  change (2 ^ 0) with 1. rewrite !Z.mul_1_r.
  destruct (Z.leb_spec 1024 f); [lia|]. destruct (Z.eqb_spec f 1023); [lia|].
  cbn [orb andb]. eexists. split; [reflexivity|].
  set (m := round_half_even (Z.pos p * 2 ^ s) d).
  pose proof (round_half_even_error (Z.pos p * 2 ^ s) d ltac:(lia)) as Herr.
  fold m in Herr.
  assert (0 < 2 ^ s) as Hs by (apply Z.pow_pos_nonneg; subst s; lia).
  assert (2 ^ s = 2 ^ (- f) * 2 ^ 52) as Hsplit
    by (rewrite <- Z.pow_add_r by lia; f_equal; subst s; lia).
  rewrite Qred_correct.
  unfold Qle, Qabs, Qminus, Qplus, Qopp, Qmult, inject_Z. cbn [Qnum Qden].
  rewrite !Pos2Z.inj_mul, !Z2Pos.id by lia.
  replace (m * d + - Z.pos p * 2 ^ s) with (m * d - Z.pos p * 2 ^ s) by lia.
  set (a := Z.abs (m * d - Z.pos p * 2 ^ s)) in *.
  assert (0 <= a) by (subst a; lia).
  change (2 ^ 53) with (2 * 2 ^ 52).
  assert (0 < 2 ^ 52) by lia.
  nia.
Qed.

Lemma truediv_ratio a b :
  0 <= a <= b -> 0 < b -> truediv a b = Ok (rnd (Qmake a (Z.to_pos b))).
Proof.
  intros Hab Hb. unfold truediv.
  destruct (Z.eqb_spec b 0); [lia|].
  rewrite Z.sgn_pos, Z.mul_1_r, Z.abs_eq by lia.
  destruct (rnd_ratio_finite a b Hab Hb) as [q ->]. reflexivity.
Qed.

Lemma flt_irrefl a : flt a a = false.
Proof.
  destruct a as [q| | |]; try reflexivity. cbn.
  now rewrite (proj1 (Qeq_alt q q) (Qeq_refl q)).
Qed.

Lemma flt_spec a b : flt (Fin a) (Fin b) = true <-> (a < b)%Q.
Proof. cbn. rewrite Qlt_alt. destruct (a ?= b)%Q; split; congruence. Qed.

Lemma flt_false a b : flt (Fin a) (Fin b) = false <-> (b <= a)%Q.
Proof.
  rewrite <- not_true_iff_false, flt_spec.
  split; [apply Qnot_lt_le | apply Qle_not_lt].
Qed.

(** The step of [max]: once [x] has replaced [b], whatever did not beat
    [b] does not beat [x]. *)
Lemma fgt_chain x b y : fgt x b = true -> fgt y b = false -> fgt y x = false.
Proof.
  unfold fgt.
  destruct x as [x| | |], b as [b| | |], y as [y| | |];
    try reflexivity; try discriminate.
  rewrite flt_spec, !flt_false. intros H1 H2.
  apply Qlt_le_weak. eapply Qle_lt_trans; eassumption.
Qed.

(** The same for [min]. *)
Lemma flt_chain x b y : flt x b = true -> flt y b = false -> flt y x = false.
Proof.
  destruct x as [x| | |], b as [b| | |], y as [y| | |];
    try reflexivity; try discriminate.
  rewrite flt_spec, !flt_false. intros H1 H2.
  apply Qlt_le_weak. eapply Qlt_le_trans; eassumption.
Qed.

(** The rounding agrees with the IEEE 754 operations of the standard
    library on these values, among them a tie, the first value that
    rounds to infinity and an inexact quotient. *)
Example rnd_agrees_on_integers :
  map (fun n => rnd (inject_Z n))
      [0; 1; 999; 1999; 2 ^ 53 + 1; 2 ^ 53 + 3; 10 ^ 30; 2 ^ 1024 - 2 ^ 970 - 1;
       2 ^ 1024 - 2 ^ 970; 10 ^ 309]
  = map (fun n => of_spec_float (spec_of_Z n))
      [0; 1; 999; 1999; 2 ^ 53 + 1; 2 ^ 53 + 3; 10 ^ 30; 2 ^ 1024 - 2 ^ 970 - 1;
       2 ^ 1024 - 2 ^ 970; 10 ^ 309].
Proof. vm_compute. reflexivity. Qed.

Example rnd_agrees_on_quotients :
  map (fun ab : Z * Z => rnd (Qmake ab.1 (Z.to_pos ab.2)))
      [(1, 3); (2, 4); (1, 10); (2, 3); (7, 5); (9007199254740991, 3)]
  = map (fun ab : Z * Z => of_spec_float (SFdiv 53 1024 (spec_of_Z ab.1) (spec_of_Z ab.2)))
      [(1, 3); (2, 4); (1, 10); (2, 3); (7, 5); (9007199254740991, 3)].
Proof. vm_compute. reflexivity. Qed.

End PyFloatFacts.

(** ** [max] and [min] *)

Section ExtremaFacts.
Context {A K : Type}.
Variable key : A -> result K.
Variable better : K -> K -> bool.

Hypothesis better_irrefl : forall a, better a a = false.
Hypothesis better_chain :
  forall x b y, better x b = true -> better y b = false -> better y x = false.

Lemma extremum_loop_unbeaten seen best kbest l r :
  key best = Ok kbest ->
  unbeaten_in key better seen best ->
  extremum_loop key (fun knew kbest => Ok (better knew kbest)) best kbest l = Ok r ->
  unbeaten_in key better (seen ++ l) r.
Proof.
  revert seen best kbest.
  induction l as [|x l IH]; intros seen best kbest Hk Hinv; cbn.
  - intros [= <-]. now rewrite app_nil_r.
  - destruct (key x) as [kx|e] eqn:Hkx; cbn; [|discriminate].
    replace (seen ++ x :: l)%list with ((seen ++ [x]) ++ l)%list
      by now rewrite <- app_assoc.
    destruct Hinv as (Hin & kb & Hkb & Hall).
    assert (kb = kbest) as -> by congruence.
    destruct (better kx kbest) eqn:Hb.
    + apply IH; [exact Hkx|]. split; [apply in_or_app; right; now left|].
      exists kx. split; [exact Hkx|]. intros y [Hy|[<-|[]]]%in_app_or.
      * destruct (Hall y Hy) as (ky & Hky & Hyb). exists ky. split; [exact Hky|].
        eapply better_chain; eassumption.
      * exists kx. split; [exact Hkx | apply better_irrefl].
    + apply IH; [exact Hk|]. split; [apply in_or_app; now left|].
      exists kbest. split; [exact Hk|]. intros y [Hy|[<-|[]]]%in_app_or.
      * apply Hall, Hy.
      * exists kx. split; [exact Hkx | exact Hb].
Qed.

(** What [max] or [min] returns is an item no other item beats. *)
Lemma extremum_unbeaten first rest r :
  extremum key (fun knew kbest => Ok (better knew kbest)) first rest = Ok r ->
  unbeaten_in key better (first :: rest) r.
Proof.
  unfold extremum. destruct (key first) as [k|e] eqn:Hk; cbn; [|discriminate].
  apply (extremum_loop_unbeaten [first]); [exact Hk|].
  split; [now left|]. exists k. split; [exact Hk|].
  intros y [<-|[]]. exists k. split; [exact Hk | apply better_irrefl].
Qed.

Lemma extremum_loop_total best kbest l :
  (forall y, In y l -> exists ky, key y = Ok ky) ->
  exists r, extremum_loop key (fun knew kbest => Ok (better knew kbest)) best kbest l = Ok r.
Proof.
  revert best kbest. induction l as [|x l IH]; intros best kbest Hall; cbn.
  - now exists best.
  - destruct (Hall x (or_introl eq_refl)) as (kx & ->). cbn.
    destruct (better kx kbest); apply IH; intros y Hy; apply Hall; now right.
Qed.

(** When every key can be computed, [max] and [min] return. *)
Lemma extremum_total first rest :
  (forall y, In y (first :: rest) -> exists ky, key y = Ok ky) ->
  exists r, extremum key (fun knew kbest => Ok (better knew kbest)) first rest = Ok r.
Proof.
  intros Hall. unfold extremum.
  destruct (Hall first (or_introl eq_refl)) as (k & ->). cbn.
  apply extremum_loop_total. intros y Hy. apply Hall. now right.
Qed.
Lemma extremum_loop_raises best kbest l y e :
  In y l -> key y = Raise e ->
  exists e',
    extremum_loop key (fun knew kbest => Ok (better knew kbest)) best kbest l = Raise e'.
Proof.
  revert best kbest. induction l as [|x l IH]; intros best kbest []; intros Hy.
  - subst x. cbn. rewrite Hy. now exists e.
  - cbn. destruct (key x) as [kx|e']; cbn; [|now exists e'].
    destruct (better kx kbest); now apply IH.
Qed.

(** When some key cannot be computed, [max] and [min] raise. *)
Lemma extremum_raises first rest y e :
  In y (first :: rest) -> key y = Raise e ->
  exists e', extremum key (fun knew kbest => Ok (better knew kbest)) first rest = Raise e'.
Proof.
  intros [<-|Hy] Hk; unfold extremum.
  - rewrite Hk. now exists e.
  - destruct (key first) as [k|e']; cbn; [|now exists e'].
    now apply (extremum_loop_raises first k rest y e).
Qed.
End ExtremaFacts.

(** *** The first of the best *)

Section ExtremaFirst.
Context {A K : Type}.
Variable key : A -> result K.
Variable better : K -> K -> bool.
(** The keys the key function can give, on which [better] is a strict
    order that leaves no two keys unrelated except equal-ranking ones. *)
Variable valid : K -> Prop.
Hypothesis key_valid : forall x k, key x = Ok k -> valid k.
Hypothesis better_trans :
  forall x b y, better x b = true -> better b y = true -> better x y = true.
Hypothesis better_strict :
  forall x b y, valid x -> valid b -> valid y ->
    better x b = true -> better y b = false -> better x y = true.

Lemma extremum_loop_first seen_before seen_after best kbest l r :
  key best = Ok kbest ->
  (forall y, In y seen_before -> exists ky, key y = Ok ky /\ better kbest ky = true) ->
  (forall y, In y seen_after -> exists ky, key y = Ok ky /\ better ky kbest = false) ->
  extremum_loop key (fun knew kbest => Ok (better knew kbest)) best kbest l = Ok r ->
  exists before after kr,
    (seen_before ++ best :: seen_after ++ l)%list = (before ++ r :: after)%list
    /\ key r = Ok kr
    /\ (forall y, In y before -> exists ky, key y = Ok ky /\ better kr ky = true)
    /\ (forall y, In y after -> exists ky, key y = Ok ky /\ better ky kr = false).
Proof.
  revert seen_before seen_after best kbest.
  induction l as [|x l IH]; intros sb sa best kbest Hk Hb Ha; cbn.
  - intros [= <-]. exists sb, sa, kbest. rewrite app_nil_r. auto.
  - destruct (key x) as [kx|e] eqn:Hkx; cbn; [|discriminate].
    destruct (better kx kbest) eqn:Hbt; intros Hr.
    + destruct (IH (sb ++ best :: sa)%list [] x kx Hkx) as (bf & af & kr & Heq & Hrest).
      * intros y [Hy|[<-|Hy]]%in_app_or.
        -- destruct (Hb y Hy) as (ky & Hky & Hlt). exists ky. split; [exact Hky|].
           eapply better_trans; eassumption.
        -- exists kbest. auto.
        -- destruct (Ha y Hy) as (ky & Hky & Hle). exists ky. split; [exact Hky|].
           apply (better_strict kx kbest ky); eauto.
      * intros y [].
      * exact Hr.
      * exists bf, af, kr. split; [|exact Hrest].
        rewrite <- Heq. cbn. rewrite <- !app_assoc. reflexivity.
    + destruct (IH sb (sa ++ [x])%list best kbest Hk Hb) as (bf & af & kr & Heq & Hrest).
      * intros y [Hy|[<-|[]]]%in_app_or; [now apply Ha|]. exists kx. auto.
      * exact Hr.
      * exists bf, af, kr. split; [|exact Hrest].
        rewrite <- Heq. rewrite <- !app_assoc. reflexivity.
Qed.

(** [max] and [min] return the first of the items no item beats. *)
Lemma extremum_first first rest r :
  extremum key (fun knew kbest => Ok (better knew kbest)) first rest = Ok r ->
  first_unbeaten_in key better (first :: rest) r.
Proof.
  unfold extremum. destruct (key first) as [k|e] eqn:Hk; cbn; [|discriminate].
  intros Hr.
  destruct (extremum_loop_first [] [] first k rest r Hk) as (bf & af & kr & Heq & Hrest);
    [intros y []|intros y []|exact Hr|].
  exists bf, af, kr. split; [exact Heq | exact Hrest].
Qed.

(** Trying one more item after the others: the loop over [l ++ [x]] is
    the loop over [l] followed by one comparison with [x]. *)
Lemma extremum_loop_snoc best kbest l x :
  key best = Ok kbest ->
  extremum_loop key (fun knew kbest => Ok (better knew kbest)) best kbest (l ++ [x])
  = (r ← extremum_loop key (fun knew kbest => Ok (better knew kbest)) best kbest l;
     kr ← key r;
     kx ← key x;
     Ok (if better kx kr then x else r)).
Proof.
  revert best kbest. induction l as [|y l IH]; intros best kbest Hk; cbn.
  - rewrite Hk. cbn. destruct (key x) as [kx|e]; cbn; [|reflexivity].
    destruct (better kx kbest); reflexivity.
  - destruct (key y) as [ky|e] eqn:Hky; cbn; [|reflexivity].
    destruct (better ky kbest); now apply IH.
Qed.
End ExtremaFirst.

(** *** Range of the rounding *)

Module PyFloatRange.
Import PyFloat PyFloatFacts.

Lemma round_half_even_nonneg n d : 0 <= n -> 0 < d -> 0 <= round_half_even n d.
Proof.
  intros Hn Hd. unfold round_half_even.
  pose proof (Z.div_pos n d Hn Hd).
  destruct (_ ?= _); [destruct (Z.even _)| |]; lia.
Qed.

Lemma round_half_even_le n d k : 0 < d -> n <= k * d -> round_half_even n d <= k.
Proof.
  intros Hd Hn. unfold round_half_even.
  pose proof (Z.div_mod n d ltac:(lia)) as Hdm.
  pose proof (Z.mod_pos_bound n d Hd) as Hr.
  assert (n / d <= k) as Hq by nia.
  destruct (Z.compare_spec (2 * (n mod d)) d) as [Heq|Hlt|Hgt].
  - destruct (Z.even (n / d)); nia.
  - exact Hq.
  - nia.
Qed.

(** A float that is neither negative nor NaN. *)
Lemma binary64_of_pos_nonneg p d :
  0 < p -> 0 < d ->
  binary64_of_pos p d = PInf \/ exists q, binary64_of_pos p d = Fin q /\ (0 <= q)%Q.
Proof.
  intros Hp Hd. unfold binary64_of_pos.
  destruct (_ || _); [now left|]. right. eexists. split; [reflexivity|].
  rewrite Qred_correct. unfold Qle. cbn [Qnum Qden]. rewrite Z.mul_1_r, Z.mul_0_l.
  apply Z.mul_nonneg_nonneg; [|apply Z.pow_nonneg; lia].
  apply round_half_even_nonneg.
  - apply Z.mul_nonneg_nonneg; [lia | apply Z.pow_nonneg; lia].
  - apply Z.mul_pos_pos; [lia | apply Z.pow_pos_nonneg; lia].
Qed.

Lemma rnd_nonneg q :
  (0 <= q)%Q -> rnd q = PInf \/ exists v, rnd q = Fin v /\ (0 <= v)%Q.
Proof.
  intros Hq. unfold rnd. destruct q as [n d]. unfold Qle in Hq. cbn in Hq.
  cbn [Qnum Qden]. destruct n as [|p|p]; [| |lia].
  - right. exists 0%Q. split; [reflexivity | apply Qle_refl].
  - apply binary64_of_pos_nonneg; lia.
Qed.

Lemma rnd_not_nan q : rnd q <> NaN.
Proof.
  unfold rnd. destruct (Qnum q) as [|p|p]; [discriminate| |];
    unfold binary64_of_pos; destruct (_ || _); discriminate.
Qed.

Lemma fadd_nonneg x y :
  (x = PInf \/ exists a, x = Fin a /\ (0 <= a)%Q) ->
  (y = PInf \/ exists b, y = Fin b /\ (0 <= b)%Q) ->
  fadd x y = PInf \/ exists c, fadd x y = Fin c /\ (0 <= c)%Q.
Proof.
  intros [->|(a & -> & Ha)] [->|(b & -> & Hb)]; try (now left).
  cbn. apply rnd_nonneg.
  replace 0%Q with (0 + 0)%Q by reflexivity. now apply Qplus_le_compat.
Qed.

(** The float of a quotient between 0 and 1 is between 0 and 1. *)
Lemma rnd_ratio_bounds p d :
  0 <= p <= d -> 0 < d ->
  exists v, rnd (Qmake p (Z.to_pos d)) = Fin v /\ (0 <= v)%Q /\ (v <= 1)%Q.
Proof.
  intros [Hp Hpd] Hd. unfold rnd. cbn [Qnum Qden].
  destruct p as [|p|p]; [|clear Hp|lia].
  { exists 0%Q. split; [reflexivity|]. split; [apply Qle_refl | discriminate]. }
  rewrite Z2Pos.id by lia. unfold binary64_of_pos.
  pose proof (floor_log2_le (Z.pos p) d) as Hf.
  pose proof (Z.log2_le_mono _ _ Hpd) as Hmono.
  set (e := Z.max (floor_log2 (Z.pos p) d) (-1022)).
  assert (-1022 <= e <= 0) as He by (subst e; lia).
  destruct (Z.leb_spec 1024 e); [lia|]. destruct (Z.eqb_spec e 1023); [lia|].
  cbn [orb andb]. set (s := 52 - e).
  rewrite (Z.max_r 0 s), (Z.max_l 0 (- s)) by (subst s; lia).
  change (2 ^ 0) with 1. rewrite !Z.mul_1_r.
  assert (0 < 2 ^ s) as Hs by (apply Z.pow_pos_nonneg; subst s; lia).
  set (m := round_half_even (Z.pos p * 2 ^ s) d).
  assert (0 <= m) as Hm0 by (apply round_half_even_nonneg; lia).
  assert (m <= 2 ^ s) as Hm1 by (apply round_half_even_le; nia).
  eexists. split; [reflexivity|]. rewrite Qred_correct.
  unfold Qle. cbn [Qnum Qden]. rewrite Z2Pos.id by lia. lia.
Qed.

(** The float of [d / d] is 1. *)
Lemma rnd_whole d : 0 < d -> rnd (Qmake d (Z.to_pos d)) = Fin 1.
Proof.
  intros Hd. unfold rnd. cbn [Qnum Qden]. destruct d as [|d|d]; [lia| |lia].
  rewrite Z2Pos.id by lia. unfold binary64_of_pos, floor_log2.
  rewrite Z.sub_diag. change (Z.max 0 (- 0)) with 0. change (Z.max 0 0) with 0.
  rewrite Z.ltb_irrefl. change (Z.max 0 (-1022)) with 0.
  change (52 - 0) with 52. change (Z.max 0 52) with 52. change (Z.max 0 (- 52)) with 0.
  change (2 ^ 0) with 1. rewrite !Z.mul_1_r. cbn [Z.leb Z.eqb Z.compare orb andb].
  assert (round_half_even (Z.pos d * 2 ^ 52) (Z.pos d) = 2 ^ 52) as ->.
  { unfold round_half_even.
    replace (Z.pos d * 2 ^ 52) with (2 ^ 52 * Z.pos d) by lia.
    rewrite Z.mod_mul, Z.div_mul by lia.
    destruct (Z.compare_spec (2 * 0) (Z.pos d)); [lia|reflexivity|lia]. }
  reflexivity.
Qed.

(** An integer from [2^1024] on has no float: the conversion raises. *)
Lemma rnd_int_overflow n : 2 ^ 1024 <= n -> rnd (inject_Z n) = PInf.
Proof.
  intros Hn. unfold rnd. cbn [inject_Z Qnum Qden].
  assert (0 < n) as Hpos by (pose proof (Z.pow_pos_nonneg 2 1024); lia).
  destruct n as [|p|p]; [lia| |lia].
  unfold binary64_of_pos. rewrite floor_log2_int by lia.
  assert (1024 <= Z.log2 (Z.pos p)) as Hl by (apply Z.log2_le_pow2; lia).
  rewrite Z.max_l by lia. destruct (Z.leb_spec 1024 (Z.log2 (Z.pos p))); [reflexivity | lia].
Qed.

(** A quotient whose numerator has at most 1022 bits more than the
    denominator has a finite float, of either sign. *)
Lemma rnd_finite_of_log2 a d :
  0 < d -> Z.log2 (Z.abs a) - Z.log2 d < 1023 ->
  exists v, rnd (Qmake a (Z.to_pos d)) = Fin v.
Proof.
  intros Hd Hl. unfold rnd. cbn [Qnum Qden]. rewrite Z2Pos.id by lia.
  destruct a as [|p|p]; [now exists 0%Q| |].
  - now apply binary64_of_pos_finite.
  - destruct (binary64_of_pos_finite (Z.pos p) d Hl) as [q ->]. cbn. eauto.
Qed.

End PyFloatRange.
(** ** The purchase mapper *)

Module MapperSpec.
Import PyFloat PyVal Mapper.

(** C1, as stated, fails: with a non-empty payload and the sample
    signature of the script, the verification reports success. *)
Lemma verify_purchase_signature_accepts :
  "{}" <> EmptyString /\ "FAKE_SIGNATURE" <> EmptyString /\
  (verify_purchase_signature "{}" "FAKE_SIGNATURE" "").2 = true.
Proof. repeat split; discriminate. Qed.

(** C1, amended: [verify_purchase_signature] never looks at the public
    key; it reports failure exactly when the signature or the purchase data
    is empty or all whitespace (and then prints the placeholder warning),
    and reports success on every other input. *)
Theorem verify_purchase_signature_blank_check (purchase_data signature public_key : string) :
  verify_purchase_signature purchase_data signature public_key =
    (if PyStr.blank signature || PyStr.blank purchase_data
     then ([placeholder_warning], false) else ([], true))
  /\ (forall public_key' : string,
        verify_purchase_signature purchase_data signature public_key' =
        verify_purchase_signature purchase_data signature public_key).
Proof.
  split; [|reflexivity].
  unfold verify_purchase_signature.
  rewrite !PyStrFacts.strip_truthy, !negb_involutive. reflexivity.
Qed.

Section Loaded.
Variable json_loads : string -> result pyval.
Variables (raw sig : string) (d : gmap string pyval).
Hypothesis loaded : json_loads raw = Ok (PDict d).

(** The record built from a payload that parses to a [dict]. *)
Lemma map_to_purchase_info_loaded :
  map_to_purchase_info json_loads raw sig =
  Ok {| order_id := dict_get d "orderId";
        purchase_token := dict_get d "purchaseToken";
        payload := dict_get d "developerPayload";
        package_name := dict_get d "packageName";
        purchase_state :=
          if eq_zero (dict_get d "purchaseState") then PURCHASED else REFUNDED;
        purchase_time := dict_get_default d "purchaseTime" (PInt 0);
        product_id := dict_get d "productId";
        data_signature := sig;
        original_json := raw |}.
Proof. unfold map_to_purchase_info. rewrite loaded. reflexivity. Qed.
End Loaded.

(** C3: a payload that parses to a key-value structure yields a record
    whose state is PURCHASED when its [purchaseState] field equals 0 (as
    [==] has it) and REFUNDED otherwise; the integer 0 gives PURCHASED and
    every other integer, 1 among them, gives REFUNDED. *)
Theorem map_to_purchase_info_state
    (json_loads : string -> result pyval) (purchase_data data_signature : string)
    (d : gmap string pyval) :
  json_loads purchase_data = Ok (PDict d) ->
  exists info,
    map_to_purchase_info json_loads purchase_data data_signature = Ok info
    /\ purchase_state info =
         (if eq_zero (dict_get d "purchaseState") then PURCHASED else REFUNDED)
    /\ (d !! "purchaseState" = Some (PInt 0) -> purchase_state info = PURCHASED)
    /\ (d !! "purchaseState" = Some (PInt 1) -> purchase_state info = REFUNDED)
    /\ (forall z, z <> 0 -> d !! "purchaseState" = Some (PInt z) ->
         purchase_state info = REFUNDED).
Proof.
  intros Hload. eexists. split; [apply map_to_purchase_info_loaded, Hload|].
  cbn [purchase_state]. unfold dict_get.
  split; [reflexivity|]. split; [|split].
  - intros ->. reflexivity.
  - intros ->. reflexivity.
  - intros z Hz ->. cbn. destruct (Z.eqb_spec z 0); [contradiction | reflexivity].
Qed.

Lemma map_to_purchase_info_state_witness :
  exists info,
    map_to_purchase_info example_loads (payload_state "0") "FAKE_SIGNATURE" = Ok info
    /\ purchase_state info = PURCHASED.
Proof.
  destruct (map_to_purchase_info_state example_loads (payload_state "0")
              "FAKE_SIGNATURE" {[ "purchaseState" := PInt 0 ]} eq_refl)
    as (info & Hinfo & _ & H0 & _).
  exists info. split; [exact Hinfo | apply H0; reflexivity].
Defined.

(** C6, as stated, fails: the empty object, where [purchaseState] is
    missing, maps to REFUNDED, while the value 0 maps to PURCHASED. *)
Lemma missing_purchase_state_differs_from_zero :
  exists i i0,
    map_to_purchase_info example_loads "{}" "FAKE_SIGNATURE" = Ok i
    /\ map_to_purchase_info example_loads (payload_state "0") "FAKE_SIGNATURE" = Ok i0
    /\ purchase_state i = REFUNDED /\ purchase_state i0 = PURCHASED.
Proof. do 2 eexists. repeat split. Qed.

(** C6, amended: in the record of a payload that parses to a key-value
    structure, a missing [orderId], [purchaseToken], [developerPayload],
    [packageName] or [productId] is [None], a missing [purchaseTime] is 0,
    and a missing [purchaseState] is read as [None], which is not 0, so the
    state is REFUNDED. *)
Theorem map_to_purchase_info_missing
    (json_loads : string -> result pyval) (purchase_data data_signature : string)
    (d : gmap string pyval) :
  json_loads purchase_data = Ok (PDict d) ->
  exists info,
    map_to_purchase_info json_loads purchase_data data_signature = Ok info
    /\ (d !! "orderId" = None -> order_id info = PNone)
    /\ (d !! "purchaseToken" = None -> purchase_token info = PNone)
    /\ (d !! "developerPayload" = None -> payload info = PNone)
    /\ (d !! "packageName" = None -> package_name info = PNone)
    /\ (d !! "productId" = None -> product_id info = PNone)
    /\ (d !! "purchaseTime" = None -> purchase_time info = PInt 0)
    /\ (d !! "purchaseState" = None -> purchase_state info = REFUNDED).
Proof.
  intros Hload. eexists. split; [apply map_to_purchase_info_loaded, Hload|].
  cbn -[dict_get dict_get_default]. unfold dict_get, dict_get_default.
  repeat split; intros ->; reflexivity.
Qed.

Lemma map_to_purchase_info_missing_witness :
  exists info,
    map_to_purchase_info example_loads "{}" "FAKE_SIGNATURE" = Ok info
    /\ order_id info = PNone /\ purchase_time info = PInt 0
    /\ purchase_state info = REFUNDED.
Proof.
  destruct (map_to_purchase_info_missing example_loads "{}" "FAKE_SIGNATURE" ∅ eq_refl)
    as (info & Hinfo & Ho & _ & _ & _ & _ & Ht & Hs).
  exists info. split; [exact Hinfo|].
  split; [apply Ho; reflexivity|]. split; [apply Ht; reflexivity | apply Hs; reflexivity].
Defined.

End MapperSpec.


(** ** More on the purchase mapper *)

Module MapperProps.
Import PyFloat PyVal Mapper MapperSamples.

Section Parsed.
Variable json_loads : string -> result pyval.

(** X1: [map_list] is all or nothing.  When it returns, the list has one
    record per payload, in order, each the record [map_to_purchase_info]
    gives; when some payload cannot be mapped it raises and no partial
    list comes back. *)
Theorem map_list_all_or_nothing (batch : list (string * string)) :
  (forall infos,
     map_list json_loads batch = Ok infos ->
     Forall2 (fun ds info => map_to_purchase_info json_loads ds.1 ds.2 = Ok info)
             batch infos)
  /\ (forall ds e,
        In ds batch -> map_to_purchase_info json_loads ds.1 ds.2 = Raise e ->
        exists e', map_list json_loads batch = Raise e')
  /\ ((forall ds, In ds batch ->
         exists info, map_to_purchase_info json_loads ds.1 ds.2 = Ok info) ->
      exists infos,
        map_list json_loads batch = Ok infos /\ length infos = length batch).
Proof.
  induction batch as [|[d s] rest (IHok & IHerr & IHall)].
  - split; [intros infos [= <-]; constructor|].
    split; [intros ds e []|]. intros _. now exists [].
  - cbn [map_list]. split; [|split].
    + intros infos.
      destruct (map_to_purchase_info json_loads d s) as [p|e] eqn:Hp; [|discriminate].
      cbn. destruct (map_list json_loads rest) as [ps|e] eqn:Hps; [|discriminate].
      cbn. intros [= <-]. constructor; [exact Hp | now apply IHok].
    + intros ds e [<-|Hin] He.
      * cbn [fst snd] in He. rewrite He. now exists e.
      * destruct (map_to_purchase_info json_loads d s) as [p|e0]; [|now exists e0].
        cbn. destruct (IHerr ds e Hin He) as [e' ->]. now exists e'.
    + intros Hall.
      destruct (Hall (d, s) (or_introl eq_refl)) as [p Hp]. cbn [fst snd] in Hp.
      destruct IHall as (ps & Hps & Hlen); [intros ds Hds; apply Hall; now right|].
      exists (p :: ps). rewrite Hp. cbn. rewrite Hps. cbn.
      split; [reflexivity | now rewrite Hlen].
Qed.

(** X3: [is_refunded] on a payload says what the mapped record says:
    whenever [map_to_purchase_info] returns a record, [is_refunded] returns
    whether its state is REFUNDED, and when one raises so does the other. *)
Theorem is_refunded_agrees_with_record (purchase_data data_signature : string) :
  match map_to_purchase_info json_loads purchase_data data_signature with
  | Ok info =>
      is_refunded json_loads purchase_data
      = Ok (PurchaseState_eqb (purchase_state info) REFUNDED)
  | Raise e => is_refunded json_loads purchase_data = Raise e
  end.
Proof.
  unfold map_to_purchase_info, is_refunded.
  destruct (json_loads purchase_data) as [data|e]; [|reflexivity].
  destruct data; try reflexivity. cbn.
  destruct (eq_zero _); reflexivity.
Qed.

(** X4: the helpers that read one field agree with the mapped record:
    [get_field] returns the record's order identifier and product
    identifier, and [is_purchase_for_product] holds exactly when the
    record's product identifier is that string; in particular a payload
    without [productId] is for no product. *)
Theorem field_helpers_agree_with_record
    (purchase_data data_signature : string) (info : PurchaseInfo) :
  map_to_purchase_info json_loads purchase_data data_signature = Ok info ->
  get_field json_loads purchase_data "orderId" = Ok (order_id info)
  /\ get_field json_loads purchase_data "productId" = Ok (product_id info)
  /\ (forall product,
        is_purchase_for_product json_loads purchase_data product
        = Ok (eq_str (product_id info) product))
  /\ (forall product,
        is_purchase_for_product json_loads purchase_data product = Ok true
        <-> product_id info = PStr product)
  /\ (product_id info = PNone ->
      forall product,
        is_purchase_for_product json_loads purchase_data product = Ok false).
Proof.
  unfold map_to_purchase_info, get_field, is_purchase_for_product.
  destruct (json_loads purchase_data) as [data|e]; [|discriminate].
  destruct data; try discriminate. cbn. intros [= <-]. cbn.
  split; [reflexivity|]. split; [reflexivity|]. split; [reflexivity|]. split.
  - intros product. split.
    + intros [= H]. destruct (dict_get d "productId"); try discriminate.
      cbn in H. apply String.eqb_eq in H. now subst.
    + intros ->. cbn. now rewrite String.eqb_refl.
  - intros -> product. reflexivity.
Qed.
End Parsed.

Lemma field_helpers_agree_with_record_witness :
  get_field example_loads "{}" "productId" = Ok PNone
  /\ is_purchase_for_product example_loads "{}" "gold" = Ok false.
Proof.
  destruct (map_to_purchase_info example_loads "{}" "FAKE_SIGNATURE") as [info|e] eqn:Hinfo;
    [|discriminate Hinfo].
  destruct (field_helpers_agree_with_record example_loads "{}" "FAKE_SIGNATURE" info Hinfo)
    as (_ & Hp & _ & _ & Hnone).
  injection Hinfo as <-. split; [exact Hp | apply Hnone; reflexivity].
Defined.

(** X2: [filter_by_state] keeps exactly the purchases in the state asked
    for, in their order, so the PURCHASED and the REFUNDED purchases split
    the list: their numbers add up to its length, and filtering twice
    changes nothing. *)
Theorem filter_by_state_partition (purchases : list PurchaseInfo) (state : PurchaseState) :
  (forall p, In p (filter_by_state purchases state)
             <-> In p purchases /\ purchase_state p = state)
  /\ sublist (filter_by_state purchases state) purchases
  /\ filter_by_state (filter_by_state purchases state) state
     = filter_by_state purchases state
  /\ (length (filter_by_state purchases PURCHASED)
      + length (filter_by_state purchases REFUNDED) = length purchases)%nat.
Proof.
  unfold filter_by_state. split; [|split; [|split]].
  - intros p. rewrite filter_In. split; intros [Hin Hs]; split; try exact Hin.
    + destruct (purchase_state p), state; (reflexivity || discriminate).
    + rewrite Hs. destruct state; reflexivity.
  - induction purchases as [|p ps IH]; cbn; [constructor|].
    destruct (PurchaseState_eqb _ _); now constructor.
  - induction purchases as [|p ps IH]; cbn; [reflexivity|].
    destruct (PurchaseState_eqb (purchase_state p) state) eqn:Hp; cbn;
      [rewrite Hp, IH|]; [reflexivity | exact IH].
  - induction purchases as [|p ps IH]; cbn; [reflexivity|].
    destruct (purchase_state p); cbn; lia.
Qed.

Lemma map_list_all_or_nothing_witness :
  (exists infos,
     map_list example_loads [("{}", "s1"); (payload_state "1", "s2")] = Ok infos
     /\ length infos = 2%nat)
  /\ exists e, map_list example_loads [("{}", "s1"); ("not json", "s2")] = Raise e.
Proof.
  split.
  - apply (map_list_all_or_nothing example_loads).
    intros ds [<-|[<-|[]]]; eexists; reflexivity.
  - apply (proj1 (proj2 (map_list_all_or_nothing example_loads
                           [("{}", "s1"); ("not json", "s2")]))
             ("not json", "s2") JSONDecodeError).
    + right. now left.
    + reflexivity.
Defined.

Section MostRecent.
Variable py_gt : pyval -> pyval -> result bool.
Variable time : PurchaseInfo -> Z.
Hypothesis gt_ints : forall a b, py_gt (PInt a) (PInt b) = Ok (b <? a).

Lemma most_recent_loop best l :
  (forall p, In p (best :: l) -> purchase_time p = PInt (time p)) ->
  extremum_loop (fun p => Ok (purchase_time p)) py_gt best (PInt (time best)) l
  = extremum_loop (fun p => Ok (time p)) (fun a b => Ok (b <? a)) best (time best) l.
Proof.
  revert best. induction l as [|x l IH]; intros best Hall; [reflexivity|].
  cbn. rewrite (Hall x (or_intror (or_introl eq_refl))), gt_ints. cbn.
  destruct (time best <? time x); apply IH; intros p [<-|Hp]; apply Hall; cbn; auto.
Qed.

(** X5: among purchases whose times are integers, compared as the
    runtime compares integers, [get_most_recent_purchase] returns the first
    purchase with the latest time: every purchase before it is strictly
    earlier and none after it is later.  A single purchase is returned
    without any comparison, whatever its time is. *)
Theorem get_most_recent_purchase_latest (purchases : list PurchaseInfo) :
  (forall p, get_most_recent_purchase py_gt [p] = Ok (Some p))
  /\ (purchases <> [] ->
      (forall p, In p purchases -> purchase_time p = PInt (time p)) ->
      exists before r after,
        get_most_recent_purchase py_gt purchases = Ok (Some r)
        /\ purchases = (before ++ r :: after)%list
        /\ (forall p, In p before -> time p < time r)
        /\ (forall p, In p after -> time p <= time r)).
Proof.
  split; [reflexivity|]. intros Hne Hint.
  destruct purchases as [|p0 rest]; [contradiction|].
  unfold get_most_recent_purchase, extremum. cbn.
  rewrite (Hint p0 (or_introl eq_refl)), (most_recent_loop p0 rest Hint).
  destruct (extremum_loop_total (fun p => Ok (time p)) (fun a b => b <? a)
              p0 (time p0) rest) as [r Hr]; [eauto|].
  rewrite Hr. cbn.
  destruct (extremum_first (fun p => Ok (time p)) (fun a b => b <? a) (fun _ => True))
    with (first := p0) (rest := rest) (r := r) as (bf & af & kr & Heq & Hkr & Hbf & Haf).
  - auto.
  - intros x b y Hx Hy. apply Z.ltb_lt in Hx, Hy. apply Z.ltb_lt. lia.
  - intros x b y _ _ _ Hx Hy. apply Z.ltb_lt in Hx. apply Z.ltb_ge in Hy.
    apply Z.ltb_lt. lia.
  - unfold extremum. cbn. exact Hr.
  - injection Hkr as <-. exists bf, r, af. split; [reflexivity|]. split; [exact Heq|].
    split.
    + intros p Hp. destruct (Hbf p Hp) as (ky & [= <-] & Hlt). now apply Z.ltb_lt.
    + intros p Hp. destruct (Haf p Hp) as (ky & [= <-] & Hle). now apply Z.ltb_ge.
Qed.
End MostRecent.

Lemma get_most_recent_purchase_latest_witness :
  get_most_recent_purchase gt_on_ints
    [bought "1" 10; bought "2" 30; bought "3" 30; bought "4" 20]
  = Ok (Some (bought "2" 30)).
Proof.
  destruct (proj2 (get_most_recent_purchase_latest gt_on_ints int_time (fun a b => eq_refl)
              [bought "1" 10; bought "2" 30; bought "3" 30; bought "4" 20]))
    as (bf & r & af & Hr & _).
  - discriminate.
  - intros p [<-|[<-|[<-|[<-|[]]]]]; reflexivity.
  - reflexivity.
Defined.

End MapperProps.

(** ** The subscription manager *)

Module SubscriptionSpec.
Import PyFloat PyFloatFacts PyStrFacts Subscription Samples.

Lemma sum_int_from acc l : fold_left Z.add l acc = acc + sum_int l.
Proof.
  unfold sum_int. revert acc.
  induction l as [|x l IH]; intros acc; cbn [fold_left]; [lia|].
  rewrite (IH (acc + x)), (IH (0 + x)). lia.
Qed.

Lemma sum_int_cons x l : sum_int (x :: l) = x + sum_int l.
Proof. unfold sum_int at 1. cbn. apply sum_int_from. Qed.

Lemma len_cons {A} (x : A) l : len (x :: l) = 1 + len l.
Proof. unfold len. cbn [length]. lia. Qed.

Lemma len_nonneg {A} (l : list A) : 0 <= len l.
Proof. unfold len. lia. Qed.

Lemma len_filter_le {A} (f : A -> bool) l : len (List.filter f l) <= len l.
Proof.
  induction l as [|x l IH]; cbn [List.filter]; [lia|].
  destruct (f x); rewrite !len_cons; lia.
Qed.

Lemma len_filter_pos {A} (f : A -> bool) l x :
  In x l -> f x = true -> 0 < len (List.filter f l).
Proof.
  intros Hin Hf. assert (In x (List.filter f l)) as Hx by (apply filter_In; auto).
  destruct (List.filter f l); [destruct Hx|].
  rewrite len_cons. pose proof (len_nonneg l0). lia.
Qed.

(** Summing the refund flags counts the refunded purchases. *)
Lemma sum_refunded ps :
  sum_int (map (fun p => Z.b2z (is_refunded p)) ps) = len (List.filter is_refunded ps).
Proof.
  induction ps as [|p ps IH]; [reflexivity|].
  cbn [map List.filter]. rewrite sum_int_cons, IH.
  destruct (is_refunded p); cbn [Z.b2z]; [rewrite len_cons|]; lia.
Qed.

(** C4: [refund_ratio] returns, without raising, 0.0 for an empty
    collection and otherwise the float of the fraction of the purchases
    that are refunded: their number over the number of purchases, rounded
    once to binary64, which is within the relative error [2^-53] of the
    fraction itself.  With 2 refunded purchases among 4 it returns 0.5. *)
Theorem refund_ratio_fraction (m : SubscriptionManager) :
  refund_ratio m =
    Ok (match purchases m with
        | [] => Fin 0
        | _ :: _ => rnd (Qmake (refunded_count m) (Z.to_pos (len (purchases m))))
        end)
  /\ (refunded_count m = 0 -> refund_ratio m = Ok (Fin 0))
  /\ (0 < refunded_count m -> len (purchases m) < 2 ^ 1022 ->
      exists v,
        refund_ratio m = Ok (Fin v)
        /\ (Qabs (v - Qmake (refunded_count m) (Z.to_pos (len (purchases m))))
             * inject_Z (2 ^ 53)
            <= Qmake (refunded_count m) (Z.to_pos (len (purchases m))))%Q)
  /\ (refunded_count m = 2 -> len (purchases m) = 4 ->
      refund_ratio m = Ok (Fin (1 # 2))).
Proof.
  assert (refund_ratio m =
    Ok (match purchases m with
        | [] => Fin 0
        | _ :: _ => rnd (Qmake (refunded_count m) (Z.to_pos (len (purchases m))))
        end)) as Heq.
  { unfold refund_ratio, refunded_count.
    destruct (purchases m) as [|p ps] eqn:Hps; [reflexivity|].
    rewrite sum_refunded. apply truediv_ratio.
    - split; [apply len_nonneg | apply len_filter_le].
    - rewrite len_cons. pose proof (len_nonneg ps). lia. }
  split; [exact Heq|]. rewrite Heq. split; [|split].
  - intros ->. destruct (purchases m); reflexivity.
  - intros Hpos Hlen.
    destruct (rnd_ratio_error (refunded_count m) (len (purchases m))) as (v & Hv & Herr).
    + split; [exact Hpos | apply len_filter_le].
    + exact Hlen.
    + exists v. split; [|exact Herr]. rewrite <- Hv.
      destruct (purchases m) eqn:Hps; [|reflexivity].
      unfold refunded_count in Hpos. rewrite Hps in Hpos. discriminate Hpos.
  - intros H2 H4. destruct (purchases m); [discriminate H4|].
    rewrite H2, H4. reflexivity.
Qed.

Lemma refund_ratio_fraction_witness : refund_ratio two_and_two = Ok (Fin (1 # 2)).
Proof.
  destruct (refund_ratio_fraction two_and_two) as (_ & _ & _ & Hhalf).
  apply Hhalf; reflexivity.
Defined.

(** One turn of the loop: the value of the identifier is added when there
    is one, and the total is left alone otherwise. *)
Lemma revenue_loop_cons total p ps :
  revenue_loop total (p :: ps) =
  revenue_loop (match numeric_value (product_id p) with
                | Some v => fadd total v
                | None => total
                end) ps.
Proof.
  cbn [revenue_loop]. unfold numeric_value.
  destruct (float_of_digits_dots _); reflexivity.
Qed.

Lemma omap_numeric_cons pid l :
  omap numeric_value (pid :: l) =
  match numeric_value pid with
  | Some v => v :: omap numeric_value l
  | None => omap numeric_value l
  end.
Proof. reflexivity. Qed.

Lemma revenue_loop_sum total ps :
  revenue_loop total ps =
  Ok (fold_left fadd (omap numeric_value (map product_id ps)) total).
Proof.
  revert total. induction ps as [|p ps IH]; intros total; [reflexivity|].
  rewrite revenue_loop_cons, IH. cbn [map]. rewrite omap_numeric_cons.
  destruct (numeric_value (product_id p)); reflexivity.
Qed.

(** C7: [revenue_estimation] never raises; it returns the floating-point
    sum, taken in order from 0.0, of the values read off the product
    identifiers once every character that is neither a digit nor a dot is
    removed, and a purchase whose identifier gives no value can be taken out
    of the collection without changing the result. *)
Theorem revenue_estimation_sum (m : SubscriptionManager) :
  revenue_estimation m = Ok (fsum (omap numeric_value (map product_id (purchases m))))
  /\ (forall before p after,
        purchases m = (before ++ p :: after)%list ->
        numeric_value (product_id p) = None ->
        revenue_estimation m =
        revenue_estimation
          {| purchases := before ++ after; skus := skus m; trials := trials m |}).
Proof.
  split; [apply revenue_loop_sum|].
  intros before p after Hps Hnone. unfold revenue_estimation. cbn [purchases].
  rewrite Hps, !revenue_loop_sum. f_equal. f_equal.
  rewrite !map_app, !omap_app. cbn [map]. rewrite omap_numeric_cons, Hnone.
  reflexivity.
Qed.

Lemma revenue_estimation_sum_witness :
  revenue_estimation three_products = Ok (Fin (23 # 2))
  /\ revenue_estimation three_products =
     revenue_estimation
       {| purchases :=
            [ {| order_id := "1"; purchase_state := PURCHASED; product_id := "pack10" |};
              {| order_id := "3"; purchase_state := REFUNDED; product_id := "x1.5" |} ];
          skus := []; trials := [] |}.
Proof.
  split.
  - rewrite (proj1 (revenue_estimation_sum three_products)). reflexivity.
  - apply (proj2 (revenue_estimation_sum three_products)
             [ {| order_id := "1"; purchase_state := PURCHASED; product_id := "pack10" |} ]
             {| order_id := "2"; purchase_state := PURCHASED; product_id := "com.app.gold" |}
             [ {| order_id := "3"; purchase_state := REFUNDED; product_id := "x1.5" |} ]);
      reflexivity.
Defined.

(** *** Refund rate by type *)

Lemma group_fold rows (g : gmap string (Z * Z)) t :
  fold_left group_step rows g !! t =
  if rows_count rows t =? 0 then g !! t
  else Some ((default (0, 0) (g !! t)).1 + rows_sum rows t,
             (default (0, 0) (g !! t)).2 + rows_count rows t).
Proof.
  revert g. induction rows as [|[k v] rows IH]; intros g; [reflexivity|].
  cbn [fold_left]. rewrite IH. unfold rows_count, rows_sum. cbn [List.filter fst].
  set (fl := List.filter (fun r : string * Z => String.eqb r.1 t) rows).
  unfold group_step. cbn [fst snd].
  destruct (default (0, 0) (g !! k)) as [s c] eqn:Hg.
  destruct (String.eqb_spec k t) as [->|Hne].
  - rewrite lookup_insert_eq. cbn [default fst snd map fold_right].
    rewrite len_cons, Hg. cbn [fst snd]. pose proof (len_nonneg fl) as Hn.
    destruct (Z.eqb_spec (1 + len fl) 0); [lia|].
    destruct fl as [|r0 fl];
      [change (len (@nil (string * Z))) with 0; cbn; f_equal; f_equal; lia|].
    destruct (Z.eqb_spec (len (r0 :: fl)) 0) as [Hc|_];
      [rewrite len_cons in Hc; pose proof (len_nonneg fl); lia|].
    unfold id. cbn [fst snd]. f_equal. f_equal; lia.
  - rewrite lookup_insert_ne by assumption. reflexivity.
Qed.

(** A key has a group exactly when it has rows, and the group holds their
    sum and their number. *)
Lemma group_sums_lookup rows t :
  group_sums rows !! t =
  if rows_count rows t =? 0 then None else Some (rows_sum rows t, rows_count rows t).
Proof. unfold group_sums. rewrite group_fold, lookup_empty. reflexivity. Qed.

Lemma rows_count_of_type m t :
  rows_count (map (row_of (sku_dict (skus m))) (purchases m)) t = count_of_type m t.
Proof.
  unfold rows_count, count_of_type, looked_up_type.
  induction (purchases m) as [|p ps IH]; [reflexivity|].
  cbn [map List.filter row_of fst].
  destruct (String.eqb _ t); [rewrite !len_cons|]; lia.
Qed.

Lemma rows_sum_of_type m t :
  rows_sum (map (row_of (sku_dict (skus m))) (purchases m)) t = refunded_of_type m t.
Proof.
  unfold rows_sum, refunded_of_type, looked_up_type.
  induction (purchases m) as [|p ps IH]; [reflexivity|].
  cbn [map List.filter row_of fst].
  destruct (String.eqb _ t); cbn [andb map fold_right snd]; [|exact IH].
  unfold row_of at 1. cbn [snd].
  destruct (is_refunded p); cbn [Z.b2z]; [rewrite len_cons|]; lia.
Qed.

(** An identifier that no SKU carries is not a key of the dictionary. *)
Lemma sku_dict_from_none l (d : gmap string string) k :
  (forall s, In s l -> sku s <> k) -> d !! k = None ->
  fold_left (fun d s => <[sku s := type s]> d) l d !! k = None.
Proof.
  revert d. induction l as [|s l IH]; intros d Hall Hd; [exact Hd|].
  cbn [fold_left]. apply IH; [intros s' Hs'; apply Hall; now right|].
  rewrite lookup_insert_ne; [exact Hd | apply Hall; now left].
Qed.

Lemma sku_dict_none l k : (forall s, In s l -> sku s <> k) -> sku_dict l !! k = None.
Proof. intros H. apply sku_dict_from_none; [exact H | apply lookup_empty]. Qed.

(** The type looked up is that of the last SKU with the identifier. *)
Lemma sku_dict_last before s after :
  (forall s', In s' after -> sku s' <> sku s) ->
  sku_dict (before ++ s :: after) !! sku s = Some (type s).
Proof.
  intros Hlast. unfold sku_dict. rewrite fold_left_app. cbn [fold_left].
  set (d := <[sku s := type s]> _).
  assert (d !! sku s = Some (type s)) as Hd by apply lookup_insert_eq.
  clearbody d. revert d Hd. induction after as [|s' after IH]; intros d Hd; [exact Hd|].
  cbn [fold_left]. apply IH; [intros x Hx; apply Hlast; now right|].
  rewrite lookup_insert_ne; [exact Hd | apply Hlast; now left].
Qed.

(** C5, as stated, fails: with no SKU at all the only purchase matches no
    SKU, and yet the result has no "unknown" entry (it has no entry). *)
Lemma unmatched_purchase_without_unknown_entry :
  let p := {| order_id := "1"; purchase_state := REFUNDED; product_id := "gold" |} in
  let m := {| purchases := [p]; skus := []; trials := [] |} in
  In p (purchases m)
  /\ (forall s, In s (skus m) -> sku s <> product_id p)
  /\ refund_probability_by_type m !! "unknown" = None
  /\ refund_probability_by_type m = ∅.
Proof. cbn. split; [now left|]. split; [intros s []|]. split; reflexivity. Qed.

(** C5, amended: when the purchases or the SKUs are empty the result is
    the empty mapping.  Otherwise it has an entry exactly for the types
    that some purchase looks up to, "unknown" being the type of a purchase
    whose product identifier no SKU carries, and the entry is the float of
    the fraction of refunded purchases among the purchases of that type; a
    purchase that matches no SKU then does put an "unknown" entry in the
    result.  A purchase whose identifier some SKU carries looks up to the
    type of the last such SKU. *)
Theorem refund_probability_by_type_lookup (m : SubscriptionManager) (t : string) :
  refund_probability_by_type m !! t =
    match purchases m, skus m with
    | [], _ | _, [] => None
    | _ :: _, _ :: _ =>
        if count_of_type m t =? 0 then None
        else Some (rnd (Qmake (refunded_of_type m t) (Z.to_pos (count_of_type m t))))
    end
  /\ (forall p, In p (purchases m) ->
        (forall s, In s (skus m) -> sku s <> product_id p) ->
        looked_up_type m p = "unknown"
        /\ (skus m <> [] -> is_Some (refund_probability_by_type m !! "unknown")))
  /\ (forall p before s after,
        skus m = (before ++ s :: after)%list -> sku s = product_id p ->
        (forall s', In s' after -> sku s' <> sku s) ->
        looked_up_type m p = type s).
Proof.
  assert (refund_probability_by_type m !! t =
    match purchases m, skus m with
    | [], _ | _, [] => None
    | _ :: _, _ :: _ =>
        if count_of_type m t =? 0 then None
        else Some (rnd (Qmake (refunded_of_type m t) (Z.to_pos (count_of_type m t))))
    end) as Hlookup.
  { unfold refund_probability_by_type.
    destruct (purchases m) as [|p ps] eqn:Hps; [apply lookup_empty|].
    destruct (skus m) as [|s ss] eqn:Hss; [apply lookup_empty|].
    unfold groupby_mean. rewrite lookup_fmap, group_sums_lookup.
    rewrite <- Hps, <- Hss, rows_count_of_type, rows_sum_of_type.
    destruct (count_of_type m t =? 0); reflexivity. }
  split; [exact Hlookup|]. clear t Hlookup. split;
    [|intros p before s after Hskus Hid Hlast; unfold looked_up_type;
      rewrite Hskus, <- Hid, (sku_dict_last before s after Hlast); reflexivity].
  intros p Hin Hnone.
  assert (looked_up_type m p = "unknown") as Hty.
  { unfold looked_up_type. now rewrite sku_dict_none. }
  split; [exact Hty|]. intros Hskus.
  assert (0 < count_of_type m "unknown") as Hpos.
  { unfold count_of_type. apply (len_filter_pos _ _ p Hin).
    rewrite Hty. apply String.eqb_refl. }
  unfold refund_probability_by_type.
  destruct (purchases m) as [|p0 ps] eqn:Hps; [destruct Hin|].
  destruct (skus m) as [|s ss] eqn:Hss; [contradiction|].
  unfold groupby_mean. rewrite lookup_fmap, group_sums_lookup.
  rewrite <- Hps, <- Hss, rows_count_of_type.
  destruct (Z.eqb_spec (count_of_type m "unknown") 0); [lia|]. cbn. eauto.
Qed.

Lemma refund_probability_by_type_lookup_witness :
  let p := {| order_id := "3"; purchase_state := REFUNDED; product_id := "silver" |} in
  let m := {| purchases := purchases two_and_two;
              skus := [sku_of "gold" "$19.99"]; trials := [] |} in
  looked_up_type m p = "unknown"
  /\ refund_probability_by_type m !! "unknown" = Some (Fin 1)
  /\ refund_probability_by_type m !! "one-time"
     = Some (Fin (6004799503160661 # 18014398509481984)).
Proof.
  intros p m.
  destruct (proj1 (proj2 (refund_probability_by_type_lookup m "unknown")) p) as [Hty _].
  - cbn. auto.
  - intros s [<-|[]]. discriminate.
  - split; [exact Hty|]. split.
    + rewrite (proj1 (refund_probability_by_type_lookup m "unknown")). reflexivity.
    + rewrite (proj1 (refund_probability_by_type_lookup m "one-time")). reflexivity.
Defined.

(** *** The most and the least expensive SKU *)

Lemma price_digits_empty s : has_digits s = false -> price_digits s = EmptyString.
Proof. unfold has_digits. destruct (price_digits s); [reflexivity | discriminate]. Qed.

(** With decimal digits only, the key of [max] is the float of the number
    the digits spell, 0 when there is no digit. *)
Lemma most_key_decimal s :
  decimal_price s = true -> most_key s = Ok (rnd (inject_Z (digit_number s))).
Proof.
  unfold decimal_price, most_key, digit_number. intros Hd.
  destruct (PyStr.truthy (price_digits s)) eqn:Ht.
  - now apply float_of_decimal_digits.
  - rewrite (price_digits_empty s Ht). reflexivity.
Qed.

(** The key of [min] is the same float when there is a digit, and
    infinity when there is none. *)
Lemma least_key_decimal s :
  decimal_price s = true ->
  least_key s = Ok (if has_digits s then rnd (inject_Z (digit_number s)) else PInf).
Proof.
  unfold decimal_price, least_key, digit_number, has_digits. intros Hd.
  destruct (PyStr.truthy (price_digits s)) eqn:Ht; [|reflexivity].
  now apply float_of_decimal_digits.
Qed.

Lemma digit_number_nonneg s : decimal_price s = true -> 0 <= digit_number s.
Proof. apply decimal_value_nonneg. Qed.

Lemma digit_free_keys s :
  has_digits s = false -> most_key s = Ok (Fin 0) /\ least_key s = Ok PInf.
Proof.
  unfold has_digits, most_key, least_key. intros ->. split; reflexivity.
Qed.

Lemma most_expensive_sku_unbeaten m r :
  most_expensive_sku m = Ok (Some r) -> unbeaten_in most_key fgt (skus m) r.
Proof.
  unfold most_expensive_sku. destruct (skus m) as [|s rest]; [discriminate|].
  destruct (extremum _ _ s rest) as [r'|e] eqn:Hex; [|discriminate].
  intros [= <-]. revert Hex.
  apply extremum_unbeaten; [intros a; apply flt_irrefl | apply fgt_chain].
Qed.

Lemma least_expensive_sku_unbeaten m r :
  least_expensive_sku m = Ok (Some r) -> unbeaten_in least_key flt (skus m) r.
Proof.
  unfold least_expensive_sku. destruct (skus m) as [|s rest]; [discriminate|].
  destruct (extremum _ _ s rest) as [r'|e] eqn:Hex; [|discriminate].
  intros [= <-]. revert Hex.
  apply extremum_unbeaten; [apply flt_irrefl | apply flt_chain].
Qed.

Lemma extreme_skus_exist m :
  skus m <> [] ->
  (forall s, In s (skus m) -> decimal_price s = true) ->
  exists smax smin,
    most_expensive_sku m = Ok (Some smax) /\ least_expensive_sku m = Ok (Some smin).
Proof.
  intros Hne Hdec. unfold most_expensive_sku, least_expensive_sku.
  destruct (skus m) as [|s rest]; [contradiction|].
  destruct (extremum_total most_key fgt s rest) as [smax Hmax].
  { intros y Hy. rewrite (most_key_decimal y (Hdec y Hy)). eauto. }
  destruct (extremum_total least_key flt s rest) as [smin Hmin].
  { intros y Hy. rewrite (least_key_decimal y (Hdec y Hy)). eauto. }
  exists smax, smin. rewrite Hmax, Hmin. split; reflexivity.
Qed.

(** With a digit character that [float] rejects, neither key exists. *)
Lemma keys_not_decimal s :
  decimal_price s = false ->
  most_key s = Raise ValueError /\ least_key s = Raise ValueError.
Proof.
  unfold decimal_price, most_key, least_key. intros Hn.
  assert (PyStr.truthy (price_digits s) = true) as ->
    by (destruct (price_digits s); [discriminate Hn | reflexivity]).
  rewrite float_of_digits_not_decimal;
    [split; reflexivity | apply filter_chars_all | exact Hn].
Qed.

(** One such price in the collection and both functions raise. *)
Lemma non_decimal_digit_raises m s :
  In s (skus m) -> decimal_price s = false ->
  (exists e, most_expensive_sku m = Raise e)
  /\ (exists e, least_expensive_sku m = Raise e).
Proof.
  intros Hin Hn. destruct (keys_not_decimal s Hn) as [Hmost Hleast].
  unfold most_expensive_sku, least_expensive_sku.
  destruct (skus m) as [|s0 rest]; [destruct Hin|]. split.
  - destruct (extremum_raises most_key fgt s0 rest s ValueError Hin Hmost) as [e ->].
    now exists e.
  - destruct (extremum_raises least_key flt s0 rest s ValueError Hin Hleast) as [e ->].
    now exists e.
Qed.

(** The superscript two is a digit character for [str.isdigit] and not
    for [float], so with a price per square metre in the collection
    neither function returns a SKU. *)
Lemma extreme_sku_raises_on_superscript :
  PyStr.isdigit superscript_two = true
  /\ price_digits per_area = "999" ++ String superscript_two EmptyString
  /\ most_expensive_sku (with_skus [monthly; per_area]) = Raise ValueError
  /\ least_expensive_sku (with_skus [monthly; per_area]) = Raise ValueError.
Proof. repeat split. Qed.

(** C2, as stated, fails: the SKU returned is not always the one with
    the largest number.  Of two prices one apart, [2^53] and [2^53 + 1],
    [most_expensive_sku] returns the first, whose number is the smaller,
    because the key is a float and both numbers round to the same float. *)
Lemma most_expensive_sku_not_largest_number :
  most_expensive_sku (with_skus [plan_a; plan_b]) = Ok (Some plan_a)
  /\ digit_number plan_a < digit_number plan_b.
Proof. split; reflexivity. Qed.

(** C2, amended: for a non-empty collection whose prices have no digit
    character that [float] rejects, [most_expensive_sku] returns a SKU whose
    key no key exceeds and [least_expensive_sku] one whose key is exceeded by
    no key, the key being the binary64 float nearest to the number the
    digits of the price spell (0 for [max] and infinity for [min] when the
    price has no digit).  When every such number is below [2^53] the float
    is the number itself, so the SKU returned by [most_expensive_sku] has
    the largest number and, if every price has a digit, the one returned
    by [least_expensive_sku] the smallest.  "$9.99" counts as 999 and
    "$19.99" as 1999, and of these two [most_expensive_sku] returns the
    "$19.99" SKU. *)
Theorem extreme_sku_by_float_key :
  (forall m : SubscriptionManager,
     skus m <> [] ->
     (forall s, In s (skus m) -> decimal_price s = true) ->
     exists smax smin,
       most_expensive_sku m = Ok (Some smax)
       /\ least_expensive_sku m = Ok (Some smin)
       /\ unbeaten_in most_key fgt (skus m) smax
       /\ unbeaten_in least_key flt (skus m) smin
       /\ ((forall s, In s (skus m) -> digit_number s < 2 ^ 53) ->
           (forall t, In t (skus m) -> digit_number t <= digit_number smax)
           /\ ((forall s, In s (skus m) -> has_digits s = true) ->
               forall t, In t (skus m) -> digit_number smin <= digit_number t)))
  /\ (forall a b ps ts,
        price a = "$9.99" -> price b = "$19.99" ->
        digit_number a = 999 /\ digit_number b = 1999
        /\ most_expensive_sku {| purchases := ps; skus := [a; b]; trials := ts |}
           = Ok (Some b)
        /\ most_expensive_sku {| purchases := ps; skus := [b; a]; trials := ts |}
           = Ok (Some b)).
Proof.
  split.
  - intros m Hne Hdec.
    destruct (extreme_skus_exist m Hne Hdec) as (smax & smin & Hmax & Hmin).
    exists smax, smin. split; [exact Hmax|]. split; [exact Hmin|].
    pose proof (most_expensive_sku_unbeaten m smax Hmax) as Umax.
    pose proof (least_expensive_sku_unbeaten m smin Hmin) as Umin.
    split; [exact Umax|]. split; [exact Umin|].
    intros Hsmall.
    assert (forall s, In s (skus m) ->
              rnd (inject_Z (digit_number s)) = Fin (inject_Z (digit_number s))) as Hexact.
    { intros s Hs. apply rnd_int_exact. split; [|now apply Hsmall].
      apply digit_number_nonneg, Hdec, Hs. }
    split.
    + intros t Ht. destruct Umax as (Hin & kr & Hkr & Hall).
      destruct (Hall t Ht) as (kt & Hkt & Hle).
      rewrite (most_key_decimal _ (Hdec _ Hin)), (Hexact _ Hin) in Hkr.
      rewrite (most_key_decimal _ (Hdec _ Ht)), (Hexact _ Ht) in Hkt.
      injection Hkr as <-. injection Hkt as <-.
      unfold fgt in Hle. apply flt_false in Hle. now rewrite Zle_Qle.
    + intros Hdig t Ht. destruct Umin as (Hin & kr & Hkr & Hall).
      destruct (Hall t Ht) as (kt & Hkt & Hle).
      rewrite (least_key_decimal _ (Hdec _ Hin)), (Hdig _ Hin), (Hexact _ Hin) in Hkr.
      rewrite (least_key_decimal _ (Hdec _ Ht)), (Hdig _ Ht), (Hexact _ Ht) in Hkt.
      injection Hkr as <-. injection Hkt as <-.
      apply flt_false in Hle. now rewrite Zle_Qle.
  - intros a b ps ts Ha Hb.
    assert (most_key a = Ok (Fin 999)) as Ka
      by (unfold most_key, price_digits; rewrite Ha; reflexivity).
    assert (most_key b = Ok (Fin 1999)) as Kb
      by (unfold most_key, price_digits; rewrite Hb; reflexivity).
    split; [unfold digit_number, price_digits; rewrite Ha; reflexivity|].
    split; [unfold digit_number, price_digits; rewrite Hb; reflexivity|].
    unfold most_expensive_sku, extremum. cbn [skus extremum_loop].
    rewrite Ka, Kb. split; reflexivity.
Qed.

Lemma extreme_sku_by_float_key_witness :
  most_expensive_sku (with_skus [monthly; yearly]) = Ok (Some yearly)
  /\ exists smax smin,
       most_expensive_sku (with_skus [monthly; yearly; trial_plan]) = Ok (Some smax)
       /\ least_expensive_sku (with_skus [monthly; yearly; trial_plan]) = Ok (Some smin)
       /\ digit_number trial_plan <= digit_number smax.
Proof.
  split.
  - apply (proj2 extreme_sku_by_float_key monthly yearly [] []); reflexivity.
  - destruct (proj1 extreme_sku_by_float_key (with_skus [monthly; yearly; trial_plan]))
      as (smax & smin & Hmax & Hmin & _ & _ & Hnum).
    + discriminate.
    + intros s [<-|[<-|[<-|[]]]]; reflexivity.
    + exists smax, smin. split; [exact Hmax|]. split; [exact Hmin|].
      apply Hnum.
      * intros s [<-|[<-|[<-|[]]]]; reflexivity.
      * right; right; now left.
Defined.

(** *** Prices without a digit *)

(** C10, as stated, fails: next to a SKU whose 310-digit price is a
    positive number, [least_expensive_sku] returns the SKU whose price has
    no digit, because the long price rounds to infinity as well and the
    first of two equal keys is kept. *)
Lemma digit_free_sku_returned_as_least :
  has_digits trial_plan = false
  /\ decimal_price vault_plan = true
  /\ 0 < digit_number vault_plan
  /\ least_key vault_plan = Ok PInf
  /\ least_expensive_sku (with_skus [trial_plan; vault_plan]) = Ok (Some trial_plan).
Proof. repeat split; vm_compute; reflexivity. Qed.

(** C10, amended: a SKU whose price has no digit character has key 0 for
    [most_expensive_sku] and key infinity for [least_expensive_sku], so the
    two rank it differently; in a collection that also holds a SKU whose
    key is a finite float, [least_expensive_sku] never returns a SKU
    without a digit; and the key of a price of decimal digits is finite
    whenever its number is below [2^1023]. *)
Theorem digit_free_sku_keys (m : SubscriptionManager) (s : SkuDetails) :
  has_digits s = false ->
  most_key s = Ok (Fin 0)
  /\ least_key s = Ok PInf
  /\ most_key s <> least_key s
  /\ (forall t q r,
        In t (skus m) -> least_key t = Ok (Fin q) ->
        least_expensive_sku m = Ok (Some r) -> has_digits r = true)
  /\ (forall t,
        decimal_price t = true -> has_digits t = true -> digit_number t < 2 ^ 1023 ->
        exists q, least_key t = Ok (Fin q)).
Proof.
  intros Hs. destruct (digit_free_keys s Hs) as [Hmost Hleast].
  split; [exact Hmost|]. split; [exact Hleast|].
  split; [rewrite Hmost, Hleast; discriminate|]. split.
  - intros t q r Ht Hkt Hr.
    destruct (least_expensive_sku_unbeaten m r Hr) as (_ & kr & Hkr & Hall).
    destruct (Hall t Ht) as (kt & Hkt' & Hle).
    rewrite Hkt in Hkt'. injection Hkt' as <-.
    destruct (has_digits r) eqn:Hd; [reflexivity|].
    rewrite (proj2 (digit_free_keys r Hd)) in Hkr. injection Hkr as <-.
    discriminate Hle.
  - intros t Hdec Hdig Hlt. rewrite (least_key_decimal t Hdec), Hdig.
    destruct (rnd_int_finite (digit_number t)) as [q ->]; [|eauto].
    split; [now apply digit_number_nonneg | exact Hlt].
Qed.

Lemma digit_free_sku_keys_witness :
  most_key trial_plan = Ok (Fin 0)
  /\ least_key trial_plan = Ok PInf
  /\ least_expensive_sku (with_skus [trial_plan; yearly; monthly]) = Ok (Some monthly).
Proof.
  destruct (digit_free_sku_keys (with_skus [trial_plan; yearly; monthly]) trial_plan eq_refl)
    as (Hmost & Hleast & _).
  split; [exact Hmost|]. split; [exact Hleast | reflexivity].
Defined.

(** *** Empty collections *)

(** C8: with no purchase [refund_ratio] returns 0.0, with no trial
    [average_trial_days] returns 0.0, with no SKU [most_expensive_sku] and
    [least_expensive_sku] return [None], and [get_most_recent_purchase] of
    the empty list returns [None]; none of them raises. *)
Theorem empty_collections
    (m : SubscriptionManager) (py_gt : PyVal.pyval -> PyVal.pyval -> result bool) :
  (purchases m = [] -> refund_ratio m = Ok (Fin 0))
  /\ (trials m = [] -> average_trial_days m = Ok (Fin 0))
  /\ (skus m = [] -> most_expensive_sku m = Ok None /\ least_expensive_sku m = Ok None)
  /\ Mapper.get_most_recent_purchase py_gt [] = Ok None.
Proof.
  unfold refund_ratio, average_trial_days, most_expensive_sku, least_expensive_sku.
  split; [intros ->; reflexivity|]. split; [intros ->; reflexivity|].
  split; [intros ->; split; reflexivity | reflexivity].
Qed.

Lemma empty_collections_witness :
  refund_ratio init = Ok (Fin 0)
  /\ average_trial_days init = Ok (Fin 0)
  /\ most_expensive_sku init = Ok None
  /\ least_expensive_sku init = Ok None
  /\ Mapper.get_most_recent_purchase (fun _ _ => Raise TypeError) [] = Ok None.
Proof.
  destruct (empty_collections init (fun _ _ => Raise TypeError))
    as (Hr & Ha & Hs & Hg).
  split; [apply Hr; reflexivity|]. split; [apply Ha; reflexivity|].
  destruct (Hs eq_refl) as [Hmost Hleast].
  split; [exact Hmost|]. split; [exact Hleast | exact Hg].
Defined.

(** *** More on the subscription manager *)

Import PyFloatRange.

Lemma all_decimal_app a b :
  PyStr.all_chars PyStr.isdecimal a = true ->
  PyStr.all_chars PyStr.isdecimal b = true ->
  PyStr.all_chars PyStr.isdecimal (a ++ b)%string = true.
Proof.
  intros Ha Hb. induction a as [|c a IH]; [exact Hb|].
  cbn in Ha. apply andb_prop in Ha as [Hc Ha].
  change (PyStr.isdecimal c && PyStr.all_chars PyStr.isdecimal (a ++ b)%string = true).
  rewrite Hc. now apply IH.
Qed.

Lemma float_of_digits_dots_nonneg s v :
  float_of_digits_dots s = Ok v -> v = PInf \/ exists q, v = Fin q /\ (0 <= q)%Q.
Proof.
  unfold float_of_digits_dots. destruct (PyStr.split_dot s) as [ip fp].
  set (fr := match fp with Some f => f | None => EmptyString end).
  destruct (PyStr.all_chars PyStr.isdecimal ip) eqn:Hi; [|discriminate].
  destruct (PyStr.all_chars PyStr.isdecimal fr) eqn:Hf; [|discriminate].
  destruct (PyStr.truthy (ip ++ fr)); [|discriminate].
  cbn [andb]. intros [= <-].
  apply rnd_nonneg. unfold Qle. cbn [Qnum Qden]. rewrite Z.mul_0_l, Z.mul_1_r.
  apply decimal_value_nonneg. now apply all_decimal_app.
Qed.

Lemma numeric_value_nonneg pid v :
  numeric_value pid = Some v -> v = PInf \/ exists q, v = Fin q /\ (0 <= q)%Q.
Proof.
  unfold numeric_value.
  destruct (float_of_digits_dots _) as [w|e] eqn:Hw; [|discriminate].
  intros [= <-]. eapply float_of_digits_dots_nonneg, Hw.
Qed.

Lemma fold_fadd_nonneg l total :
  (total = PInf \/ exists a, total = Fin a /\ (0 <= a)%Q) ->
  (forall v, In v l -> v = PInf \/ exists q, v = Fin q /\ (0 <= q)%Q) ->
  fold_left fadd l total = PInf
  \/ exists c, fold_left fadd l total = Fin c /\ (0 <= c)%Q.
Proof.
  revert total. induction l as [|v l IH]; intros total Ht Hl; [exact Ht|].
  cbn [fold_left]. apply IH.
  - apply fadd_nonneg; [exact Ht | apply Hl; now left].
  - intros w Hw. apply Hl. now right.
Qed.

(** X6: [revenue_estimation] is never negative and never NaN: it returns
    a finite float that is at least 0, or infinity. *)
Theorem revenue_estimation_nonneg (m : SubscriptionManager) :
  exists total,
    revenue_estimation m = Ok total
    /\ (total = PInf \/ exists q, total = Fin q /\ (0 <= q)%Q).
Proof.
  eexists. split; [apply revenue_loop_sum|].
  apply fold_fadd_nonneg.
  - right. exists 0%Q. split; [reflexivity | apply Qle_refl].
  - intros v Hv. apply list_elem_of_In, list_elem_of_omap in Hv as (pid & _ & Hpid).
    eapply numeric_value_nonneg, Hpid.
Qed.

(** X7: adding a purchase adds its value to the revenue: the estimate
    after [add_purchase] is the estimate before plus the value read off the
    new product identifier, and the estimate before when the identifier
    gives none. *)
Theorem revenue_estimation_add_purchase (m : SubscriptionManager) (p : PurchaseInfo) :
  exists total,
    revenue_estimation m = Ok total
    /\ revenue_estimation (add_purchase m p)
       = Ok (match numeric_value (product_id p) with
             | Some v => fadd total v
             | None => total
             end).
Proof.
  eexists. split; [apply revenue_loop_sum|].
  unfold revenue_estimation, add_purchase. cbn [purchases].
  rewrite revenue_loop_sum, map_app, omap_app, fold_left_app. cbn [map].
  rewrite omap_numeric_cons. destruct (numeric_value (product_id p)); reflexivity.
Qed.

(** X8: [refund_ratio] always returns a float between 0 and 1; it is 1
    when the collection is not empty and every purchase is refunded. *)
Theorem refund_ratio_range (m : SubscriptionManager) :
  (exists v, refund_ratio m = Ok (Fin v) /\ (0 <= v)%Q /\ (v <= 1)%Q)
  /\ (purchases m <> [] -> (forall p, In p (purchases m) -> is_refunded p = true) ->
      refund_ratio m = Ok (Fin 1)).
Proof.
  unfold refund_ratio. split.
  - destruct (purchases m) as [|p ps] eqn:Hps.
    { exists 0%Q. split; [reflexivity|]. split; [apply Qle_refl | discriminate]. }
    rewrite sum_refunded.
    assert (0 < len (p :: ps)) as Hlen by (rewrite len_cons; pose proof (len_nonneg ps); lia).
    rewrite truediv_ratio;
      [|split; [apply len_nonneg | apply len_filter_le] | exact Hlen].
    destruct (rnd_ratio_bounds (len (List.filter is_refunded (p :: ps))) (len (p :: ps)))
      as (v & -> & Hv); [split; [apply len_nonneg | apply len_filter_le] | exact Hlen|].
    now exists v.
  - intros Hne Hall. destruct (purchases m) as [|p ps] eqn:Hps; [contradiction|].
    rewrite sum_refunded.
    assert (List.filter is_refunded (p :: ps) = p :: ps) as ->.
    { clear -Hall. induction (p :: ps) as [|x l IH]; [reflexivity|].
      cbn. rewrite (Hall x (or_introl eq_refl)). f_equal.
      apply IH. intros y Hy. apply Hall. now right. }
    assert (0 < len (p :: ps)) as Hlen by (rewrite len_cons; pose proof (len_nonneg ps); lia).
    rewrite truediv_ratio by lia. now rewrite rnd_whole.
Qed.

Lemma refund_ratio_range_witness :
  refund_ratio {| purchases := List.filter is_refunded (purchases two_and_two);
                  skus := []; trials := [] |} = Ok (Fin 1).
Proof.
  apply (proj2 (refund_ratio_range _)); [discriminate|].
  intros p [<-|[<-|[]]]; reflexivity.
Defined.

(** *** Ties and growing collections of SKUs *)

Lemma fgt_trans x b y : fgt x b = true -> fgt b y = true -> fgt x y = true.
Proof.
  unfold fgt.
  destruct x as [x| | |], b as [b| | |], y as [y| | |];
    try reflexivity; try discriminate.
  rewrite !flt_spec. intros H1 H2. eapply Qlt_trans; eassumption.
Qed.

Lemma flt_trans x b y : flt x b = true -> flt b y = true -> flt x y = true.
Proof. intros H1 H2. apply (fgt_trans y b x); assumption. Qed.

Lemma fgt_strict x b y :
  x <> NaN -> b <> NaN -> y <> NaN ->
  fgt x b = true -> fgt y b = false -> fgt x y = true.
Proof.
  unfold fgt.
  destruct x as [x| | |], b as [b| | |], y as [y| | |];
    try reflexivity; try discriminate; try contradiction.
  rewrite !flt_spec, flt_false. intros _ _ _ H1 H2. eapply Qle_lt_trans; eassumption.
Qed.

Lemma flt_strict x b y :
  x <> NaN -> b <> NaN -> y <> NaN ->
  flt x b = true -> flt y b = false -> flt x y = true.
Proof.
  destruct x as [x| | |], b as [b| | |], y as [y| | |];
    try reflexivity; try discriminate; try contradiction.
  rewrite !flt_spec, flt_false. intros _ _ _ H1 H2. eapply Qlt_le_trans; eassumption.
Qed.

Lemma float_of_digits_dots_not_nan s k : float_of_digits_dots s = Ok k -> k <> NaN.
Proof.
  intros H. destruct (float_of_digits_dots_nonneg s k H) as [->|(q & -> & _)]; discriminate.
Qed.

Lemma most_key_not_nan s k : most_key s = Ok k -> k <> NaN.
Proof.
  unfold most_key. destruct (PyStr.truthy _); [apply float_of_digits_dots_not_nan|].
  intros [= <-]. discriminate.
Qed.

Lemma least_key_not_nan s k : least_key s = Ok k -> k <> NaN.
Proof.
  unfold least_key. destruct (PyStr.truthy _); [apply float_of_digits_dots_not_nan|].
  intros [= <-]. discriminate.
Qed.

(** X9: ties go to the first.  The SKU [most_expensive_sku] returns has a
    key strictly greater than every SKU before it in the collection and at
    least as great as every SKU after it; the SKU [least_expensive_sku]
    returns has a key strictly smaller than every SKU before it and at most
    as great as every SKU after it. *)
Theorem extreme_sku_first_of_ties (m : SubscriptionManager) :
  (forall r, most_expensive_sku m = Ok (Some r) ->
             first_unbeaten_in most_key fgt (skus m) r)
  /\ (forall r, least_expensive_sku m = Ok (Some r) ->
                first_unbeaten_in least_key flt (skus m) r).
Proof.
  unfold most_expensive_sku, least_expensive_sku.
  destruct (skus m) as [|s rest]; [split; discriminate|]. split; intros r.
  - destruct (extremum _ _ s rest) as [r'|e] eqn:Hex; [|discriminate].
    intros [= <-]. revert Hex.
    apply (extremum_first most_key fgt (fun k => k <> NaN));
      [apply most_key_not_nan | apply fgt_trans | apply fgt_strict].
  - destruct (extremum _ _ s rest) as [r'|e] eqn:Hex; [|discriminate].
    intros [= <-]. revert Hex.
    apply (extremum_first least_key flt (fun k => k <> NaN));
      [apply least_key_not_nan | apply flt_trans | apply flt_strict].
Qed.

Lemma extreme_sku_first_of_ties_witness :
  first_unbeaten_in most_key fgt [monthly; plan_a; plan_b] plan_a.
Proof.
  apply (proj1 (extreme_sku_first_of_ties (with_skus [monthly; plan_a; plan_b]))).
  reflexivity.
Defined.

(** X10: how the answers move when a SKU is added.  When the key of the
    new SKU can be computed: on an empty collection the new SKU is the
    answer; otherwise the new SKU takes the place of the former answer
    exactly when its key is strictly greater (for [most_expensive_sku]) or
    strictly smaller (for [least_expensive_sku]), and on a tie the former
    answer stays.  When the key of the new SKU cannot be computed, the call
    raises what the key raises, on an empty collection as on one that had
    an answer. *)
Theorem extreme_sku_add_sku (m : SubscriptionManager) (s : SkuDetails) :
  (forall ks, skus m = [] -> most_key s = Ok ks ->
     most_expensive_sku (add_sku m s) = Ok (Some s))
  /\ (forall ks, skus m = [] -> least_key s = Ok ks ->
        least_expensive_sku (add_sku m s) = Ok (Some s))
  /\ (forall b kb ks,
        most_expensive_sku m = Ok (Some b) -> most_key b = Ok kb -> most_key s = Ok ks ->
        most_expensive_sku (add_sku m s) = Ok (Some (if fgt ks kb then s else b)))
  /\ (forall b kb ks,
        least_expensive_sku m = Ok (Some b) -> least_key b = Ok kb -> least_key s = Ok ks ->
        least_expensive_sku (add_sku m s) = Ok (Some (if flt ks kb then s else b)))
  /\ (forall e, most_key s = Raise e ->
        skus m = [] \/ (exists b, most_expensive_sku m = Ok (Some b)) ->
        most_expensive_sku (add_sku m s) = Raise e)
  /\ (forall e, least_key s = Raise e ->
        skus m = [] \/ (exists b, least_expensive_sku m = Ok (Some b)) ->
        least_expensive_sku (add_sku m s) = Raise e).
Proof.
  split; [|split; [|split; [|split; [|split]]]].
  - unfold most_expensive_sku, add_sku. cbn [skus].
    intros ks -> Hk. cbn. unfold extremum. rewrite Hk. reflexivity.
  - unfold least_expensive_sku, add_sku. cbn [skus].
    intros ks -> Hk. cbn. unfold extremum. rewrite Hk. reflexivity.
  - unfold most_expensive_sku, add_sku. cbn [skus].
    intros b kb ks. destruct (skus m) as [|s0 rest]; [discriminate|].
    change ((s0 :: rest) ++ [s])%list with (s0 :: (rest ++ [s]))%list. cbn iota.
    unfold extremum. destruct (most_key s0) as [k0|e] eqn:Hk0; cbn; [|discriminate].
    rewrite (extremum_loop_snoc most_key fgt s0 k0 rest s Hk0).
    destruct (extremum_loop _ _ s0 k0 rest) as [r|e]; cbn; [|discriminate].
    intros [= ->] Hkb Hks. rewrite Hkb, Hks. reflexivity.
  - unfold least_expensive_sku, add_sku. cbn [skus].
    intros b kb ks. destruct (skus m) as [|s0 rest]; [discriminate|].
    change ((s0 :: rest) ++ [s])%list with (s0 :: (rest ++ [s]))%list. cbn iota.
    unfold extremum. destruct (least_key s0) as [k0|e] eqn:Hk0; cbn; [|discriminate].
    rewrite (extremum_loop_snoc least_key flt s0 k0 rest s Hk0).
    destruct (extremum_loop _ _ s0 k0 rest) as [r|e]; cbn; [|discriminate].
    intros [= ->] Hkb Hks. rewrite Hkb, Hks. reflexivity.
  - intros e Hks [Hempty|[b Hb]].
    + unfold most_expensive_sku, add_sku. cbn [skus]. rewrite Hempty. cbn.
      unfold extremum. rewrite Hks. reflexivity.
    + destruct (most_expensive_sku_unbeaten m b Hb) as (_ & kb & Hkb & _).
      revert Hb. unfold most_expensive_sku, add_sku. cbn [skus].
      destruct (skus m) as [|s0 rest]; [discriminate|].
      change ((s0 :: rest) ++ [s])%list with (s0 :: (rest ++ [s]))%list. cbn iota.
      unfold extremum. destruct (most_key s0) as [k0|e0] eqn:Hk0; cbn; [|discriminate].
      rewrite (extremum_loop_snoc most_key fgt s0 k0 rest s Hk0).
      destruct (extremum_loop _ _ s0 k0 rest) as [r|e0]; cbn; [|discriminate].
      intros [= ->]. rewrite Hkb, Hks. reflexivity.
  - intros e Hks [Hempty|[b Hb]].
    + unfold least_expensive_sku, add_sku. cbn [skus]. rewrite Hempty. cbn.
      unfold extremum. rewrite Hks. reflexivity.
    + destruct (least_expensive_sku_unbeaten m b Hb) as (_ & kb & Hkb & _).
      revert Hb. unfold least_expensive_sku, add_sku. cbn [skus].
      destruct (skus m) as [|s0 rest]; [discriminate|].
      change ((s0 :: rest) ++ [s])%list with (s0 :: (rest ++ [s]))%list. cbn iota.
      unfold extremum. destruct (least_key s0) as [k0|e0] eqn:Hk0; cbn; [|discriminate].
      rewrite (extremum_loop_snoc least_key flt s0 k0 rest s Hk0).
      destruct (extremum_loop _ _ s0 k0 rest) as [r|e0]; cbn; [|discriminate].
      intros [= ->]. rewrite Hkb, Hks. reflexivity.
Qed.

(** A dearer SKU takes the place of the answer of [most_expensive_sku] and
    leaves that of [least_expensive_sku]; a first SKU is the answer; a SKU
    priced by the square metre makes the call raise, on an empty collection
    and on one with a SKU. *)
Lemma extreme_sku_add_sku_witness :
  most_expensive_sku (add_sku (with_skus [monthly]) yearly) = Ok (Some yearly)
  /\ least_expensive_sku (add_sku (with_skus [monthly]) yearly) = Ok (Some monthly)
  /\ most_expensive_sku (add_sku init trial_plan) = Ok (Some trial_plan)
  /\ most_expensive_sku (add_sku init per_area) = Raise ValueError
  /\ least_expensive_sku (add_sku (with_skus [monthly]) per_area) = Raise ValueError.
Proof.
  destruct (extreme_sku_add_sku (with_skus [monthly]) yearly)
    as (_ & _ & Hmost & Hleast & _).
  split; [|split; [|split; [|split]]].
  - apply (Hmost monthly (Fin 999) (Fin 1999)); reflexivity.
  - apply (Hleast monthly (Fin 999) (Fin 1999)); reflexivity.
  - apply (proj1 (extreme_sku_add_sku init trial_plan) (Fin 0)); reflexivity.
  - destruct (extreme_sku_add_sku init per_area) as (_ & _ & _ & _ & Hraise & _).
    apply Hraise; [reflexivity | now left].
  - destruct (extreme_sku_add_sku (with_skus [monthly]) per_area)
      as (_ & _ & _ & _ & _ & Hraise).
    apply Hraise; [reflexivity | right; now exists monthly].
Defined.

(** *** Keys and values of the refund rates *)

Lemma sku_dict_from_some l (d : gmap string string) k ty :
  fold_left (fun d s => <[sku s := type s]> d) l d !! k = Some ty ->
  d !! k = Some ty \/ exists s, In s l /\ sku s = k /\ type s = ty.
Proof.
  revert d. induction l as [|s l IH]; intros d; [now left|].
  cbn [fold_left]. intros [Hd|(s' & Hs' & Hk & Hty)]%IH.
  - destruct (decide (sku s = k)) as [Heq|Hne].
    + rewrite Heq, lookup_insert_eq in Hd. injection Hd as <-.
      right. exists s. split; [now left | auto].
    + rewrite lookup_insert_ne in Hd by assumption. now left.
  - right. exists s'. split; [now right | auto].
Qed.

Lemma looked_up_type_cases m p :
  looked_up_type m p = "unknown"
  \/ exists s, In s (skus m) /\ sku s = product_id p /\ type s = looked_up_type m p.
Proof.
  unfold looked_up_type, sku_dict.
  destruct (fold_left _ (skus m) ∅ !! product_id p) as [ty|] eqn:Hl; [|now left].
  apply sku_dict_from_some in Hl as [Hl|Hl]; [rewrite lookup_empty in Hl; discriminate|].
  right. exact Hl.
Qed.

Lemma filter_nonempty_witness {A} (f : A -> bool) l :
  0 < len (List.filter f l) -> exists x, In x l /\ f x = true.
Proof.
  destruct (List.filter f l) as [|x fl] eqn:Hf; [discriminate|]. intros _.
  exists x. apply filter_In. rewrite Hf. now left.
Qed.

Lemma len_filter_and_le {A} (f g : A -> bool) l :
  len (List.filter (fun x => f x && g x) l) <= len (List.filter f l).
Proof.
  induction l as [|x l IH]; cbn [List.filter]; [lia|].
  destruct (f x), (g x); cbn [andb]; rewrite ?len_cons; lia.
Qed.

(** X11: every key of [refund_probability_by_type] is "unknown" or the
    type of a SKU of the collection that some purchase names, and every
    value is a float between 0 and 1. *)
Theorem refund_probability_by_type_entries
    (m : SubscriptionManager) (t : string) (v : pyfloat) :
  refund_probability_by_type m !! t = Some v ->
  (t = "unknown"
   \/ exists s p, In s (skus m) /\ In p (purchases m)
                  /\ sku s = product_id p /\ type s = t)
  /\ exists q, v = Fin q /\ (0 <= q)%Q /\ (q <= 1)%Q.
Proof.
  unfold refund_probability_by_type.
  destruct (purchases m) as [|p0 ps] eqn:Hps; [rewrite lookup_empty; discriminate|].
  destruct (skus m) as [|s0 ss] eqn:Hss; [rewrite lookup_empty; discriminate|].
  unfold groupby_mean. rewrite lookup_fmap, group_sums_lookup.
  rewrite <- Hps, <- Hss, rows_count_of_type, rows_sum_of_type.
  destruct (Z.eqb_spec (count_of_type m t) 0) as [|Hc]; [discriminate|].
  cbn. intros [= <-].
  assert (0 < count_of_type m t) as Hpos
    by (unfold count_of_type in *; pose proof (len_nonneg
          (List.filter (fun p => String.eqb (looked_up_type m p) t) (purchases m))); lia).
  split.
  - apply filter_nonempty_witness in Hpos as (p & Hp & Hty).
    apply String.eqb_eq in Hty.
    destruct (looked_up_type_cases m p) as [Hu|(s & Hs & Hid & Hst)].
    + left. congruence.
    + right. exists s, p. repeat split; congruence.
  - apply rnd_ratio_bounds; [|exact Hpos]. split.
    + apply len_nonneg.
    + apply (len_filter_and_le (fun p => String.eqb (looked_up_type m p) t)).
Qed.

Lemma refund_probability_by_type_entries_witness :
  exists q,
    refund_probability_by_type
      {| purchases := purchases two_and_two; skus := [sku_of "gold" "$19.99"];
         trials := [] |} !! "one-time" = Some (Fin q)
    /\ (0 <= q)%Q /\ (q <= 1)%Q.
Proof.
  destruct (refund_probability_by_type_entries
              {| purchases := purchases two_and_two; skus := [sku_of "gold" "$19.99"];
                 trials := [] |}
              "one-time" (Fin (6004799503160661 # 18014398509481984)) eq_refl)
    as (_ & q & Hq & Hb).
  exists q. split; [rewrite <- Hq; reflexivity | exact Hb].
Defined.

(** *** Counting SKUs and trials *)

Lemma sum_flags {A} (f : A -> bool) l :
  sum_int (map (fun x => Z.b2z (f x)) l) = len (List.filter f l).
Proof.
  induction l as [|x l IH]; [reflexivity|].
  cbn [map List.filter]. rewrite sum_int_cons, IH.
  destruct (f x); cbn [Z.b2z]; [rewrite len_cons|]; lia.
Qed.

Lemma sum_int_app l1 l2 : sum_int (l1 ++ l2) = sum_int l1 + sum_int l2.
Proof.
  induction l1 as [|x l1 IH]; cbn [app]; [reflexivity|].
  rewrite !sum_int_cons, IH. lia.
Qed.

Lemma len_app {A} (l1 l2 : list A) : len (l1 ++ l2) = len l1 + len l2.
Proof. unfold len. rewrite length_app. lia. Qed.

(** X12: in [subscription_vs_one_time] both counts are from 0 to the
    number of SKUs and add up to it, and adding a SKU raises exactly one
    of them by one: the first when the SKU is a subscription, the second
    otherwise. *)
Theorem subscription_vs_one_time_counts
    (is_subscription : SkuDetails -> bool) (m : SubscriptionManager) (s : SkuDetails) :
  exists subs one_time,
    subscription_vs_one_time is_subscription m
    = [("subscription", subs); ("one_time", one_time)]
    /\ 0 <= subs /\ 0 <= one_time /\ subs + one_time = len (skus m)
    /\ subscription_vs_one_time is_subscription (add_sku m s)
       = if is_subscription s
         then [("subscription", subs + 1); ("one_time", one_time)]
         else [("subscription", subs); ("one_time", one_time + 1)].
Proof.
  unfold subscription_vs_one_time, add_sku. cbn [skus].
  do 2 eexists. split; [reflexivity|].
  rewrite map_app, sum_int_app, len_app, !sum_flags.
  pose proof (len_nonneg (List.filter is_subscription (skus m))).
  pose proof (len_filter_le is_subscription (skus m)).
  split; [lia|]. split; [lia|]. split; [lia|].
  cbn [map List.filter]. destruct (is_subscription s);
    rewrite ?len_cons; change (len (@nil SkuDetails)) with 0;
    do 2 f_equal; try (f_equal; lia); f_equal; f_equal; lia.
Qed.

(** X13: [available_trials_count] is from 0 to the number of trials, and
    adding a trial raises it by one exactly when the trial can be used. *)
Theorem available_trials_count_range
    (can_use_trial : TrialSubscriptionInfo -> bool)
    (m : SubscriptionManager) (t : TrialSubscriptionInfo) :
  0 <= available_trials_count can_use_trial m <= len (trials m)
  /\ available_trials_count can_use_trial (add_trial m t)
     = available_trials_count can_use_trial m + Z.b2z (can_use_trial t).
Proof.
  unfold available_trials_count, add_trial. cbn [trials].
  rewrite map_app, sum_int_app, !sum_flags.
  pose proof (len_nonneg (List.filter can_use_trial (trials m))).
  pose proof (len_filter_le can_use_trial (trials m)).
  split; [lia|]. cbn [List.filter]. destruct (can_use_trial t); reflexivity.
Qed.

(** *** The average trial length *)

Lemma abs_sum_int_le l B :
  (forall x, In x l -> Z.abs x < B) -> Z.abs (sum_int l) <= len l * B.
Proof.
  induction l as [|x l IH]; intros Hall; [reflexivity|].
  rewrite sum_int_cons, len_cons.
  pose proof (Hall x (or_introl eq_refl)).
  pose proof (IH (fun y Hy => Hall y (or_intror Hy))). lia.
Qed.

Lemma truediv_one a :
  truediv a 1 = match rnd (inject_Z a) with
                | Fin q => Ok (Fin q)
                | _ => Raise OverflowError
                end.
Proof.
  unfold truediv. change (Z.sgn 1) with 1. rewrite Z.mul_1_r. reflexivity.
Qed.

Lemma sum_int_one x : sum_int [x] = x.
Proof. unfold sum_int. cbn [fold_left]. apply Z.add_0_l. Qed.

(** X14: [average_trial_days] returns a finite float whenever every trial
    length is below [2^1000] in magnitude, and for a single trial of fewer
    than [2^53] days that length itself; for a single trial of [2^1024]
    days or more the division raises [OverflowError]. *)
Theorem average_trial_days_range (m : SubscriptionManager) :
  ((forall t, In t (trials m) -> Z.abs (trial_period_days t) < 2 ^ 1000) ->
   exists v, average_trial_days m = Ok (Fin v))
  /\ (forall t, trials m = [t] -> 0 <= trial_period_days t < 2 ^ 53 ->
        average_trial_days m = Ok (Fin (inject_Z (trial_period_days t))))
  /\ (forall t, trials m = [t] -> 2 ^ 1024 <= trial_period_days t ->
        average_trial_days m = Raise OverflowError).
Proof.
  unfold average_trial_days. split; [|split].
  - intros Hall. destruct (trials m) as [|t ts] eqn:Hts; [now exists 0%Q|].
    set (l := t :: ts) in *.
    assert (0 < len l) as Hlen by (subst l; rewrite len_cons; pose proof (len_nonneg ts); lia).
    unfold truediv. destruct (Z.eqb_spec (len l) 0); [lia|].
    rewrite Z.sgn_pos, Z.mul_1_r, Z.abs_eq by lia.
    destruct (rnd_finite_of_log2 (sum_int (map trial_period_days l)) (len l) Hlen)
      as [v ->]; [|now exists v].
    assert (Z.abs (sum_int (map trial_period_days l)) <= len l * 2 ^ 1000) as Hsum.
    { replace (len l) with (len (map trial_period_days l))
        by (unfold len; now rewrite length_map).
      apply abs_sum_int_le. intros x (t' & <- & Ht')%in_map_iff. now apply Hall. }
    pose proof (Z.log2_le_mono _ _ Hsum) as Hmono.
    rewrite Z.log2_mul_pow2 in Hmono by lia. lia.
  - intros t -> Hdays. cbn [map]. change (len [t]) with 1.
    now rewrite sum_int_one, truediv_one, rnd_int_exact.
  - intros t -> Hbig. cbn [map]. change (len [t]) with 1.
    now rewrite sum_int_one, truediv_one, rnd_int_overflow.
Qed.

Lemma average_trial_days_range_witness :
  average_trial_days
    {| purchases := []; skus := [];
       trials := [ {| is_available := true; trial_period_days := 7 |} ] |}
  = Ok (Fin 7)
  /\ average_trial_days
       {| purchases := []; skus := [];
          trials := [ {| is_available := true; trial_period_days := 2 ^ 1024 |} ] |}
     = Raise OverflowError.
Proof.
  split.
  - apply (proj1 (proj2 (average_trial_days_range _))
             {| is_available := true; trial_period_days := 7 |}); [reflexivity|].
    cbn. lia.
  - apply (proj2 (proj2 (average_trial_days_range _))
             {| is_available := true; trial_period_days := 2 ^ 1024 |}); [reflexivity|].
    cbn. lia.
Defined.

(** *** When the revenue estimate is exact *)

Lemma fadd_whole a b :
  0 <= a -> 0 <= b -> a + b < 2 ^ 53 ->
  fadd (Fin (inject_Z a)) (Fin (inject_Z b)) = Fin (inject_Z (a + b)).
Proof.
  intros Ha Hb Hab. cbn [fadd].
  assert ((inject_Z a + inject_Z b)%Q = inject_Z (a + b)) as ->
    by (unfold Qplus, inject_Z; cbn [Qnum Qden]; f_equal; lia).
  apply rnd_int_exact. lia.
Qed.

Lemma revenue_loop_whole (value : PurchaseInfo -> Z) ps a :
  (forall p, In p ps ->
     0 <= value p
     /\ (numeric_value (product_id p) = Some (Fin (inject_Z (value p)))
         \/ (numeric_value (product_id p) = None /\ value p = 0))) ->
  0 <= a -> a + sum_int (map value ps) < 2 ^ 53 ->
  revenue_loop (Fin (inject_Z a)) ps = Ok (Fin (inject_Z (a + sum_int (map value ps)))).
Proof.
  revert a. induction ps as [|p ps IH]; intros a Hall Ha Hsum.
  - cbn [map revenue_loop]. change (sum_int []) with 0. now rewrite Z.add_0_r.
  - rewrite revenue_loop_cons. cbn [map] in *. rewrite sum_int_cons in *.
    destruct (Hall p (or_introl eq_refl)) as [Hp [Hv|[Hv Hz]]]; rewrite Hv.
    + assert (0 <= sum_int (map value ps)) as Hrest.
      { clear -Hall. induction ps as [|q ps IH]; [reflexivity|].
        cbn [map]. rewrite sum_int_cons.
        pose proof (proj1 (Hall q (or_intror (or_introl eq_refl)))).
        assert (0 <= sum_int (map value ps)); [|lia].
        apply IH. intros r [<-|Hr]; apply Hall; [now left | right; now right]. }
      rewrite fadd_whole by lia.
      rewrite IH; [do 2 f_equal; f_equal; lia| |lia|lia].
      intros q Hq. apply Hall. now right.
    + rewrite IH; [do 2 f_equal; f_equal; lia| |lia|lia].
      intros q Hq. apply Hall. now right.
Qed.

(** X23: the estimate is exact on whole numbers.  When every product
    identifier either gives no value or gives a whole number, and these
    numbers add up to less than [2^53], [revenue_estimation] returns their
    sum. *)
Theorem revenue_estimation_whole_numbers
    (m : SubscriptionManager) (value : PurchaseInfo -> Z) :
  (forall p, In p (purchases m) ->
     0 <= value p
     /\ (numeric_value (product_id p) = Some (Fin (inject_Z (value p)))
         \/ (numeric_value (product_id p) = None /\ value p = 0))) ->
  sum_int (map value (purchases m)) < 2 ^ 53 ->
  revenue_estimation m = Ok (Fin (inject_Z (sum_int (map value (purchases m))))).
Proof.
  intros Hall Hsum. unfold revenue_estimation.
  change (Fin 0) with (Fin (inject_Z 0)).
  rewrite (revenue_loop_whole value); [reflexivity | exact Hall | lia | lia].
Qed.

Lemma revenue_estimation_whole_numbers_witness :
  revenue_estimation whole_products = Ok (Fin 35).
Proof.
  change (Ok (Fin 35))
    with (Ok (Fin (inject_Z (sum_int (map whole_value (purchases whole_products)))))).
  apply (revenue_estimation_whole_numbers whole_products whole_value).
  - intros p [<-|[<-|[<-|[]]]]; (split; [discriminate|]); vm_compute; auto.
  - reflexivity.
Defined.

End SubscriptionSpec.
(** ** The exception manager *)

Module ExceptionsSpec.
Import Exceptions ExceptionSamples.
Local Open Scope list_scope.

Lemma str_eqb_spec a b : reflect (a = b) (str_eqb a b).
Proof.
  revert b. induction a as [|x a IH]; intros [|y b]; cbn [str_eqb];
    try (constructor; congruence).
  destruct (N.eqb_spec x y) as [->|Hxy]; cbn [andb]; [|constructor; congruence].
  destruct (IH b) as [->|Hab]; constructor; congruence.
Qed.

Lemma str_eqb_refl a : str_eqb a a = true.
Proof. destruct (str_eqb_spec a a); congruence. Qed.

(** *** The characters of a timestamp *)

Lemma zfill_chars (P : N -> bool) w n :
  (forall d, (48 <= d <= 57)%N -> P d = true) -> forallb P (zfill w n) = true.
Proof.
  intros Hdigit. revert n. induction w as [|w IH]; intros n; [reflexivity|].
  cbn [zfill]. rewrite forallb_app, IH. cbn [forallb].
  rewrite Hdigit; [reflexivity|].
  unfold digit_char. pose proof (Z.mod_pos_bound n 10 eq_refl). lia.
Qed.

(** A timestamp is made of digits, hyphens, colons, a [T] and a dot. *)
Lemma isoformat_chars (P : N -> bool) t :
  (forall d, (48 <= d <= 57)%N -> P d = true) ->
  P 45%N = true -> P 84%N = true -> P 58%N = true -> P 46%N = true ->
  forallb P (isoformat t) = true.
Proof.
  intros Hdigit Hhyphen HT Hcolon Hdot. unfold isoformat.
  change (str "-") with [45%N]. change (str "T") with [84%N].
  change (str ":") with [58%N]. change (str ".") with [46%N].
  rewrite !forallb_app, !zfill_chars by exact Hdigit. cbn [forallb].
  rewrite Hhyphen, HT, Hcolon. cbn [andb].
  destruct (microsecond t =? 0); [reflexivity|].
  rewrite forallb_app, zfill_chars by exact Hdigit. cbn [forallb].
  now rewrite Hdot.
Qed.

Lemma isoformat_encodable t : encodable (isoformat t) = true.
Proof.
  apply isoformat_chars; try reflexivity.
  intros d Hd. unfold is_surrogate.
  destruct (N.leb_spec 0xD800 d); [lia | reflexivity].
Qed.

Lemma existsb_forallb_negb {A} (f : A -> bool) l :
  existsb f l = negb (forallb (fun x => negb (f x)) l).
Proof.
  induction l as [|x l IH]; [reflexivity|]. cbn. rewrite IH.
  destruct (f x); reflexivity.
Qed.

Lemma isoformat_plain t : csv_field (isoformat t) = isoformat t.
Proof.
  unfold csv_field. rewrite existsb_forallb_negb, isoformat_chars; try reflexivity.
  intros d Hd. unfold needs_quote.
  destruct (N.eqb_spec d 44), (N.eqb_spec d 34), (N.eqb_spec d 13), (N.eqb_spec d 10);
    (lia || reflexivity).
Qed.

(** *** The lines of the file *)

(** The line [csv.writer] makes of the row of an exception is the line
    written out in [csv_record]. *)
Lemma csv_row_line ex : csv_line (csv_row ex) = csv_record ex.
Proof.
  unfold csv_line, csv_row, csv_record.
  destruct (name ex); cbn [map join]; rewrite isoformat_plain, <- ?app_assoc;
    reflexivity.
Qed.

Lemma csv_header_text : csv_line csv_header = csv_header_line.
Proof. reflexivity. Qed.

Lemma encodable_app a b : encodable (a ++ b) = encodable a && encodable b.
Proof. apply forallb_app. Qed.

Lemma encodable_double_quotes s : encodable (double_quotes s) = encodable s.
Proof.
  unfold encodable. induction s as [|c s IH]; [reflexivity|]. cbn [double_quotes].
  destruct (N.eqb_spec c 34) as [->|_]; cbn [forallb]; rewrite IH; reflexivity.
Qed.

(** Quoting adds quotes only: a field can be encoded when its text can. *)
Lemma encodable_csv_field s : encodable (csv_field s) = encodable s.
Proof.
  unfold csv_field. destruct (existsb needs_quote s); [|reflexivity].
  change (quote_char :: double_quotes s ++ [quote_char])
    with ([quote_char] ++ double_quotes s ++ [quote_char]).
  rewrite !encodable_app, encodable_double_quotes. cbn. apply andb_true_r.
Qed.

Lemma csv_record_encodable ex : encodable (csv_record ex) = encodable_exception ex.
Proof.
  unfold csv_record, encodable_exception.
  rewrite !encodable_app, !encodable_csv_field, isoformat_encodable.
  cbn. now rewrite !andb_true_r, andb_assoc.
Qed.

(** The keys of a row are the field names, so [writerow] accepts it and
    writes its line, when the line can be encoded. *)
Lemma writerow_to_dict ex written :
  writerow csv_header (to_dict ex) written = write written (csv_record ex).
Proof.
  unfold writerow. rewrite <- csv_row_line. reflexivity.
Qed.

(** The loop writes the lines of the exceptions before the first one that
    cannot be encoded, and raises at that one. *)
Lemma writerows_prefix l written :
  writerows csv_header l written
  = (written ++ concat (map csv_record (encodable_prefix l)),
     if forallb encodable_exception l then Ok tt else Raise UnicodeEncodeError).
Proof.
  revert written. induction l as [|ex l IH]; intros written.
  - cbn. now rewrite app_nil_r.
  - cbn [writerows encodable_prefix forallb]. rewrite writerow_to_dict. unfold write.
    rewrite csv_record_encodable.
    destruct (encodable_exception ex); cbn [andb map concat].
    + rewrite IH. now rewrite <- app_assoc.
    + now rewrite app_nil_r.
Qed.

(** What [save_to_csv] leaves and returns, whatever the collection holds. *)
Lemma save_to_csv_prefix m filepath fs :
  save_to_csv m filepath fs =
  match exceptions m with
  | [] => (fs, Ok tt)
  | _ :: _ =>
      (<[filepath := csv_header_line
                     ++ concat (map csv_record (encodable_prefix (exceptions m)))]> fs,
       if forallb encodable_exception (exceptions m)
       then Ok tt else Raise UnicodeEncodeError)
  end.
Proof.
  unfold save_to_csv. destruct (exceptions m) as [|ex0 l]; [reflexivity|].
  change (map fst (to_dict ex0)) with csv_header.
  change (writeheader csv_header []) with (csv_header_line, Ok tt (A:=unit)).
  cbn iota. now rewrite writerows_prefix.
Qed.

Lemma encodable_prefix_all l :
  (forall ex, In ex l -> encodable_exception ex = true) ->
  encodable_prefix l = l /\ forallb encodable_exception l = true.
Proof.
  induction l as [|ex l IH]; intros Hall; [auto|].
  cbn [encodable_prefix forallb]. rewrite (Hall ex (or_introl eq_refl)).
  destruct IH as [-> ->]; [intros x Hx; apply Hall; now right | auto].
Qed.

(** C9: on an empty collection [save_to_csv] returns at once: the files
    are what they were (nothing is created at the path, not even a header)
    and nothing is raised.  On a non-empty collection in which no name,
    message or type holds a surrogate it returns without raising, and the
    file at the path holds the header line followed by one line per
    exception, in order. *)
Theorem save_to_csv_rows (m : ExceptionManager) (filepath : string) (fs : filesystem) :
  (exceptions m = [] -> save_to_csv m filepath fs = (fs, Ok tt))
  /\ (exceptions m <> [] ->
      (forall ex, In ex (exceptions m) -> encodable_exception ex = true) ->
      save_to_csv m filepath fs
      = (<[filepath := str "name,message,type,timestamp" ++ crlf
                       ++ concat (map csv_record (exceptions m))]> fs,
         Ok tt)).
Proof.
  rewrite save_to_csv_prefix. split.
  - now intros ->.
  - intros Hne Hall. destruct (encodable_prefix_all _ Hall) as [Hprefix Hforall].
    rewrite Hprefix, Hforall. destruct (exceptions m); [contradiction | reflexivity].
Qed.

(** Nothing at the path when there is no exception; four lines when there
    are three, the message of the third in quotes for its comma. *)
Lemma save_to_csv_rows_witness :
  save_to_csv init "report.csv" ∅ = (∅, Ok tt)
  /\ (save_to_csv (add_exception reported disconnected) "report.csv" ∅).1 !! "report.csv"
     = Some (str "name,message,type,timestamp" ++ crlf
             ++ str "BazaarNotSupportedException,Bazaar is not updated,IllegalStateException,"
             ++ str "2025-03-07T12:00:05.001234" ++ crlf
             ++ str "ConsumeFailedException,Consume request failed,RemoteException,"
             ++ str "2025-03-07T12:00:05.001234" ++ crlf
             ++ str "DisconnectException," ++ [quote_char] ++ str "gone, again"
             ++ [quote_char] ++ str ",A,2025-03-07T12:00:05.001234" ++ crlf)
  /\ (save_to_csv (add_exception reported disconnected) "report.csv" ∅).2 = Ok tt.
Proof.
  split; [apply (save_to_csv_rows init "report.csv" ∅); reflexivity|].
  rewrite (proj2 (save_to_csv_rows (add_exception reported disconnected) "report.csv" ∅)).
  - split; vm_compute; reflexivity.
  - discriminate.
  - intros ex [<-|[<-|[<-|[]]]]; reflexivity.
Defined.

(** C9, as stated, fails: the second of three exceptions has a surrogate
    for its name; the export raises, and the file holds the header and the
    line of the first exception only, not one line per exception. *)
Lemma save_to_csv_lone_surrogate :
  (save_to_csv with_lone_surrogate "report.csv" ∅).2 = Raise UnicodeEncodeError
  /\ (save_to_csv with_lone_surrogate "report.csv" ∅).1 !! "report.csv"
     = Some (str "name,message,type,timestamp" ++ crlf
             ++ str "DisconnectException," ++ [quote_char] ++ str "gone, again"
             ++ [quote_char] ++ str ",A,2025-03-07T12:00:05.001234" ++ crlf).
Proof. split; vm_compute; reflexivity. Qed.

End ExceptionsSpec.


(** ** More on the exception manager *)

Module ExceptionsProps.
Import Exceptions ExceptionSamples.
Local Open Scope list_scope.

(** *** Counting by type *)

Lemma counter_add_lookup t c k :
  lookup_count t (counter_add c k) =
  if str_eqb t k then Some (default 0 (lookup_count k c) + 1) else lookup_count t c.
Proof.
  induction c as [|[k' n] c IH]; cbn [counter_add lookup_count].
  - destruct (str_eqb t k); reflexivity.
  - destruct (ExceptionsSpec.str_eqb_spec k k') as [->|Hkk']; cbn [lookup_count default].
    + destruct (str_eqb t k'); reflexivity.
    + rewrite IH. destruct (ExceptionsSpec.str_eqb_spec t k') as [->|Htk'].
      * destruct (ExceptionsSpec.str_eqb_spec k' k); [congruence | reflexivity].
      * reflexivity.
Qed.

Lemma counter_add_keys c k :
  map fst (counter_add c k) =
  if existsb (str_eqb k) (map fst c) then map fst c else (map fst c ++ [k]).
Proof.
  induction c as [|[k' n] c IH]; cbn [counter_add map fst existsb]; [reflexivity|].
  destruct (str_eqb k k'); cbn [map fst orb]; [reflexivity|].
  rewrite IH. destruct (existsb _ _); reflexivity.
Qed.

Lemma counter_add_total c k :
  fold_right Z.add 0 (map snd (counter_add c k)) = fold_right Z.add 0 (map snd c) + 1.
Proof.
  induction c as [|[k' n] c IH]; cbn [counter_add map snd fold_right]; [lia|].
  destruct (str_eqb k k'); cbn [map snd fold_right]; lia.
Qed.

Lemma counter_add_nodup c k : NoDup (map fst c) -> NoDup (map fst (counter_add c k)).
Proof.
  intros Hnd. rewrite counter_add_keys.
  destruct (existsb (str_eqb k) (map fst c)) eqn:Hex; [exact Hnd|].
  apply NoDup_app. split; [exact Hnd|]. split; [|apply NoDup_singleton].
  intros x Hx [<-|[]]%list_elem_of_In. apply list_elem_of_In in Hx.
  assert (existsb (str_eqb k) (map fst c) = true) as Habs
    by (apply existsb_exists; exists k; split; [exact Hx | apply ExceptionsSpec.str_eqb_refl]).
  congruence.
Qed.

Lemma occurrences_cons t k keys :
  occurrences t (k :: keys) = (if str_eqb t k then 1 else 0) + occurrences t keys.
Proof.
  unfold occurrences. cbn [List.filter]. destruct (str_eqb t k); cbn [length]; lia.
Qed.

Lemma occurrences_nonneg t keys : 0 <= occurrences t keys.
Proof. unfold occurrences. lia. Qed.

Lemma counter_fold_lookup t keys c :
  lookup_count t (fold_left counter_add keys c) =
  if occurrences t keys =? 0 then lookup_count t c
  else Some (default 0 (lookup_count t c) + occurrences t keys).
Proof.
  revert c. induction keys as [|k keys IH]; intros c; [reflexivity|].
  cbn [fold_left]. rewrite IH, counter_add_lookup, occurrences_cons.
  pose proof (occurrences_nonneg t keys) as Hn.
  destruct (ExceptionsSpec.str_eqb_spec t k) as [->|Hne].
  - destruct (Z.eqb_spec (1 + occurrences k keys) 0); [lia|].
    destruct (Z.eqb_spec (occurrences k keys) 0) as [->|_];
      destruct (lookup_count k c); cbn; f_equal; lia.
  - reflexivity.
Qed.

Lemma counter_fold_invariants keys c :
  NoDup (map fst c) ->
  NoDup (map fst (fold_left counter_add keys c))
  /\ fold_right Z.add 0 (map snd (fold_left counter_add keys c))
     = fold_right Z.add 0 (map snd c) + Z.of_nat (length keys)
  /\ (length (fold_left counter_add keys c) <= length c + length keys)%nat.
Proof.
  revert c. induction keys as [|k keys IH]; intros c Hnd; cbn [fold_left length].
  - split; [exact Hnd|]. split; lia.
  - destruct (IH (counter_add c k) (counter_add_nodup c k Hnd)) as (H1 & H2 & H3).
    split; [exact H1|]. rewrite H2, counter_add_total. split; [lia|].
    assert (length (counter_add c k) <= S (length c))%nat as Hlen.
    { rewrite <- (length_map fst (counter_add c k)), counter_add_keys.
      destruct (existsb _ _); rewrite ?length_app, length_map; cbn; lia. }
    lia.
Qed.

(** X15: [exception_frequency] counts by type.  A type is a key exactly
    when some exception has it, and its value is the number of exceptions
    of that type; no key comes twice, the values add up to the number of
    exceptions, and there are at most as many keys as exceptions. *)
Theorem exception_frequency_counts (m : ExceptionManager) (t : pystr) :
  lookup_count t (exception_frequency m)
  = (if count_of_type m t =? 0 then None else Some (count_of_type m t))
  /\ NoDup (map fst (exception_frequency m))
  /\ fold_right Z.add 0 (map snd (exception_frequency m))
     = Z.of_nat (length (exceptions m))
  /\ (length (exception_frequency m) <= length (exceptions m))%nat.
Proof.
  unfold exception_frequency, Counter, count_of_type. split.
  - rewrite counter_fold_lookup. cbn [lookup_count default].
    destruct (_ =? 0); [reflexivity | f_equal; lia].
  - destruct (counter_fold_invariants (map type (exceptions m)) [] (NoDup_nil_2 (A:=pystr)))
      as (H1 & H2 & H3).
    rewrite length_map in H2, H3. split; [exact H1|]. split; [exact H2 | exact H3].
Qed.

(** X16: adding an exception raises the count of its type by one, from 0
    for a type not seen before, and leaves the other counts alone; the keys
    keep their order and a new type comes last. *)
Theorem exception_frequency_add_exception
    (m : ExceptionManager) (ex : AndroidException) (t : pystr) :
  lookup_count t (exception_frequency (add_exception m ex))
  = (if str_eqb t (type ex)
     then Some (default 0 (lookup_count (type ex) (exception_frequency m)) + 1)
     else lookup_count t (exception_frequency m))
  /\ map fst (exception_frequency (add_exception m ex))
     = (if existsb (str_eqb (type ex)) (map fst (exception_frequency m))
        then map fst (exception_frequency m)
        else map fst (exception_frequency m) ++ [type ex]).
Proof.
  unfold exception_frequency, Counter, add_exception. cbn [exceptions].
  rewrite map_app, fold_left_app. cbn [map fold_left].
  split; [apply counter_add_lookup | apply counter_add_keys].
Qed.

(** Three exceptions of one type and one of another, as the script adds
    them. *)
Example exception_frequency_three_and_one :
  exception_frequency
    {| exceptions :=
         [ new noon (str "BazaarNotSupportedException") (str "Bazaar is not updated") (str "A");
           new noon (str "ConsumeFailedException") (str "Consume request failed") (str "B");
           new noon (str "DisconnectException") (str "Bazaar service disconnected") (str "A");
           new noon (str "DynamicPriceNotSupportedException")
                    (str "Dynamic pricing not supported") (str "A") ] |}
  = [(str "A", 3); (str "B", 1)].
Proof. reflexivity. Qed.

(** *** The text of the JSON export *)

Lemma count_chars_app f a b :
  count_chars f (a ++ b) = (count_chars f a + count_chars f b)%nat.
Proof. unfold count_chars. now rewrite List.filter_app, length_app. Qed.

Lemma forallb_weaken (f g : N -> bool) s :
  (forall c, f c = true -> g c = true) ->
  forallb f s = true -> forallb g s = true.
Proof.
  intros Hfg. induction s as [|c s IH]; cbn; [reflexivity|].
  intros [Hc Hs]%andb_prop. now rewrite (Hfg c Hc), IH.
Qed.

Lemma printable_no_newline s :
  forallb printable s = true -> count_chars is_newline s = O.
Proof.
  unfold count_chars. induction s as [|c s IH]; cbn; [reflexivity|].
  intros [Hc Hs]%andb_prop. unfold printable in Hc. unfold is_newline.
  apply andb_prop in Hc as [Hlo _]. apply N.leb_le in Hlo.
  destruct (N.eqb_spec c 10); [lia | exact (IH Hs)].
Qed.

Lemma hex_digit_printable d : (d < 16)%N -> printable (hex_digit d) = true.
Proof.
  intros Hd. unfold hex_digit, printable.
  destruct (N.ltb_spec d 10); apply andb_true_intro; split; apply N.leb_le; lia.
Qed.

Lemma u_escape_printable v : forallb printable (u_escape v) = true.
Proof.
  unfold u_escape. cbn [forallb].
  rewrite !hex_digit_printable by (apply N.mod_lt; discriminate). reflexivity.
Qed.

(** Every character comes out of the encoder in printable ASCII. *)
Lemma json_escape_char_printable c :
  forallb printable (json_escape_char c) = true.
Proof.
  unfold json_escape_char.
  repeat match goal with
         | |- context [(c =? ?k)%N] => destruct (N.eqb_spec c k); [reflexivity|]
         end.
  destruct ((32 <=? c) && (c <=? 126))%N eqn:Hp;
    [cbn [forallb]; unfold printable; now rewrite Hp|].
  destruct (c <? 0x10000)%N; [apply u_escape_printable|].
  now rewrite forallb_app, !u_escape_printable.
Qed.

Lemma json_escape_printable s : forallb printable (json_escape s) = true.
Proof.
  induction s as [|c s IH]; [reflexivity|].
  cbn [json_escape]. now rewrite forallb_app, json_escape_char_printable, IH.
Qed.

Lemma json_string_printable s : forallb printable (json_string s) = true.
Proof.
  unfold json_string. cbn [forallb]. now rewrite forallb_app, json_escape_printable.
Qed.

Lemma json_item_printable kv : forallb printable (json_item kv) = true.
Proof.
  unfold json_item. now rewrite !forallb_app, !json_string_printable.
Qed.

Lemma join_cons sep x y l :
  join sep (x :: y :: l) = (x ++ sep ++ join sep (y :: l)).
Proof. reflexivity. Qed.

Lemma forallb_join f sep l :
  forallb f sep = true ->
  (forall x, In x l -> forallb f x = true) ->
  forallb f (join sep l) = true.
Proof.
  intros Hsep. induction l as [|x l IH]; intros Hall; [reflexivity|].
  destruct l as [|y l]; [apply Hall; now left|].
  rewrite join_cons, !forallb_app, Hsep, (Hall x (or_introl eq_refl)). cbn [andb].
  apply IH. intros z Hz. apply Hall. now right.
Qed.

(** The line feeds of a joined text: those of the pieces, and those of the
    separator once between two pieces. *)
Lemma count_chars_join f sep l :
  count_chars f (join sep l)
  = (fold_right (fun x acc => count_chars f x + acc) 0 l
     + pred (length l) * count_chars f sep)%nat.
Proof.
  induction l as [|x l IH]; [reflexivity|].
  destruct l as [|y l]; [cbn [join fold_right length Init.Nat.pred Nat.mul]; lia|].
  rewrite join_cons, !count_chars_app, IH. cbn [fold_right length pred]. lia.
Qed.

Lemma indentation_printable level : forallb printable (indentation level) = true.
Proof.
  induction level as [|l IH]; [reflexivity|].
  cbn [indentation]. now rewrite forallb_app, IH.
Qed.

Lemma printable_pn s :
  forallb printable s = true -> forallb printable_or_newline s = true.
Proof.
  apply forallb_weaken. intros c Hc. unfold printable_or_newline. now rewrite Hc.
Qed.

(** The compact form of a [dict] of strings is one line of printable
    ASCII, whatever the strings hold. *)
Lemma dumps_printable d : forallb printable (dumps d) = true.
Proof.
  unfold dumps. rewrite !forallb_app. cbn [forallb andb].
  rewrite forallb_join; [reflexivity | reflexivity|].
  intros x (kv & <- & _)%in_map_iff. apply json_item_printable.
Qed.

(** The indented form of a [dict] of [n] strings, [n] not 0, has [n + 1]
    line feeds and is otherwise printable ASCII. *)
Lemma dumps_indent_text level d :
  d <> [] ->
  forallb printable_or_newline (dumps_indent level d) = true
  /\ count_chars is_newline (dumps_indent level d) = S (length d).
Proof.
  intros Hne. destruct d as [|kv d]; [contradiction|]. unfold dumps_indent.
  set (items := map json_item (kv :: d)).
  assert (forall x, In x items -> forallb printable x = true) as Hitems
    by (intros x (y & <- & _)%in_map_iff; apply json_item_printable).
  split.
  - rewrite !forallb_app.
    rewrite !(printable_pn _ (indentation_printable _)).
    rewrite forallb_join; [reflexivity| |].
    + rewrite !forallb_app, (printable_pn _ (indentation_printable _)). reflexivity.
    + intros x Hx. apply printable_pn, Hitems, Hx.
  - rewrite !count_chars_app, count_chars_join, !count_chars_app.
    rewrite !(printable_no_newline _ (indentation_printable _)).
    assert (fold_right (fun x acc => (count_chars is_newline x + acc)%nat) O items = O) as ->.
    { clear -Hitems. induction items as [|x l IH]; [reflexivity|]. cbn [fold_right].
      rewrite (printable_no_newline x) by (apply Hitems; now left).
      apply IH. intros y Hy. apply Hitems. now right. }
    subst items. rewrite length_map. cbn [length Init.Nat.pred].
    change (count_chars is_newline newline) with 1%nat.
    change (count_chars is_newline (str "{")) with 0%nat.
    change (count_chars is_newline (str "}")) with 0%nat.
    change (count_chars is_newline (str ",")) with 0%nat. lia.
Qed.

(** X17: [to_json] writes printable ASCII only, whatever the name, the
    message and the type hold: without [pretty] the text is a single line,
    with [pretty] it has exactly five line feeds (six lines) and nothing
    else outside printable ASCII. *)
Theorem to_json_ascii (ex : AndroidException) :
  forallb printable (to_json ex false) = true
  /\ count_chars is_newline (to_json ex false) = O
  /\ forallb printable_or_newline (to_json ex true) = true
  /\ count_chars is_newline (to_json ex true) = 5%nat.
Proof.
  unfold to_json. split; [apply dumps_printable|].
  split; [apply printable_no_newline, dumps_printable|].
  apply (dumps_indent_text 0 (to_dict ex)). discriminate.
Qed.

Lemma dumps_list_indent_text l :
  (forall d, In d l -> length d = 4%nat) ->
  forallb printable_or_newline (dumps_list_indent l) = true
  /\ count_chars is_newline (dumps_list_indent l)
     = match l with [] => O | _ :: _ => (6 * length l + 1)%nat end.
Proof.
  intros Hfour. destruct l as [|d0 l]; [split; reflexivity|]. unfold dumps_list_indent.
  set (items := map (dumps_indent 1) (d0 :: l)).
  assert (forall x, In x items ->
            forallb printable_or_newline x = true
            /\ count_chars is_newline x = 5%nat) as Hitems.
  { intros x (d & <- & Hd)%in_map_iff. pose proof (Hfour d Hd) as Hlen.
    destruct (dumps_indent_text 1 d) as [H1 H2]; [now destruct d|].
    split; [exact H1 | now rewrite H2, Hlen]. }
  split.
  - rewrite !forallb_app. cbn [forallb indentation andb].
    rewrite forallb_join; [reflexivity | reflexivity|].
    intros x Hx. apply Hitems, Hx.
  - rewrite !count_chars_app, count_chars_join.
    assert (fold_right (fun x acc => (count_chars is_newline x + acc)%nat) O items
            = (5 * length items)%nat) as ->.
    { clear -Hitems. induction items as [|x its IH]; [reflexivity|]. cbn [fold_right length].
      rewrite (proj2 (Hitems x (or_introl eq_refl))), IH; [lia|].
      intros y Hy. apply Hitems. now right. }
    subst items. rewrite length_map. cbn [length Init.Nat.pred].
    rewrite !count_chars_app.
    change (count_chars is_newline newline) with 1%nat.
    change (count_chars is_newline (indentation 1)) with 0%nat.
    change (count_chars is_newline (str "[")) with 0%nat.
    change (count_chars is_newline (str "]")) with 0%nat.
    change (count_chars is_newline (str ",")) with 0%nat. lia.
Qed.

(** Printable ASCII and line feeds can be encoded. *)
Lemma printable_encodable s : forallb printable_or_newline s = true -> encodable s = true.
Proof.
  apply forallb_weaken. intros c Hc. unfold is_surrogate.
  destruct (N.leb_spec 0xD800 c) as [Hhigh|_]; [|reflexivity].
  unfold printable_or_newline, printable, is_newline in Hc.
  destruct (N.leb_spec c 126); [lia|]. rewrite andb_false_r in Hc.
  destruct (N.eqb_spec c 10); [lia | discriminate].
Qed.

Lemma dumps_exceptions_text l :
  forallb printable_or_newline (dumps_list_indent (map to_dict l)) = true
  /\ count_chars is_newline (dumps_list_indent (map to_dict l))
     = match l with [] => O | _ :: _ => (6 * length l + 1)%nat end.
Proof.
  destruct (dumps_list_indent_text (map to_dict l)) as [H1 H2].
  { intros d (ex & <- & _)%in_map_iff. reflexivity. }
  split; [exact H1|]. rewrite H2, length_map. now destruct l.
Qed.

Lemma save_to_json_files m filepath fs :
  save_to_json m filepath fs
  = (<[filepath := dumps_list_indent (map to_dict (exceptions m))]> fs, Ok tt).
Proof.
  unfold save_to_json, write.
  now rewrite (printable_encodable _ (proj1 (dumps_exceptions_text (exceptions m)))), app_nil_l.
Qed.

(** X18: [save_to_json] always writes the file and raises nothing, also
    for an empty collection, where the text is "[]".  The text is printable
    ASCII and line feeds only, with [6 n + 1] line feeds for [n]
    exceptions, [n] not 0, and no other file is touched. *)
Theorem save_to_json_text (m : ExceptionManager) (filepath : string)
    (fs : filesystem) :
  exists text,
    (save_to_json m filepath fs).2 = Ok tt
    /\ (save_to_json m filepath fs).1 !! filepath = Some text
    /\ forallb printable_or_newline text = true
    /\ count_chars is_newline text
       = match exceptions m with
         | [] => O
         | _ :: _ => (6 * length (exceptions m) + 1)%nat
         end
    /\ (exceptions m = [] -> text = str "[]")
    /\ (forall other, other <> filepath ->
          (save_to_json m filepath fs).1 !! other = fs !! other).
Proof.
  rewrite save_to_json_files. cbn [fst snd]. eexists.
  split; [reflexivity|]. split; [apply lookup_insert_eq|].
  destruct (dumps_exceptions_text (exceptions m)) as [H1 H2].
  split; [exact H1|]. split; [exact H2|].
  split; [intros ->; reflexivity|].
  intros other Hne. now apply lookup_insert_ne.
Qed.

Lemma save_to_json_text_witness :
  (save_to_json init "report.json" ∅).1 !! "report.json" = Some (str "[]")
  /\ (save_to_csv init "report.csv" ∅).1 !! "report.csv" = None.
Proof.
  destruct (save_to_json_text init "report.json" ∅) as (text & _ & Hfile & _ & _ & Hempty & _).
  split; [|reflexivity].
  transitivity (Some text); [exact Hfile | f_equal; now apply Hempty].
Defined.

(** *** Nothing is lost in the JSON export *)

Lemma hex_value_digit d : (d < 16)%N -> hex_value (hex_digit d) = d.
Proof.
  intros Hd. unfold hex_value, hex_digit.
  destruct (N.ltb_spec d 10).
  - destruct (N.ltb_spec (48 + d) 58); lia.
  - destruct (N.ltb_spec (87 + d) 58); lia.
Qed.

(** Four hexadecimal digits are read back as the number they were made
    of. *)
Lemma hex4_digits v :
  (v < 0x10000)%N ->
  hex4 (hex_digit (v / 4096 mod 16)) (hex_digit (v / 256 mod 16))
       (hex_digit (v / 16 mod 16)) (hex_digit (v mod 16)) = v.
Proof.
  intros Hv. unfold hex4.
  rewrite !hex_value_digit by (apply N.mod_lt; discriminate).
  zify. Z.to_euclidean_division_equations. lia.
Qed.

Lemma json_unescape_head_u h3 h2 h1 h0 r :
  json_unescape_head (backslash :: 117%N :: h3 :: h2 :: h1 :: h0 :: r) =
  let v := hex4 h3 h2 h1 h0 in
  if ((0xD800 <=? v) && (v <? 0xDC00))%N then
    match r with
    | _ :: _ :: l3 :: l2 :: l1 :: l0 :: r' =>
        Some ((0x10000 + (v - 0xD800) * 1024 + (hex4 l3 l2 l1 l0 - 0xDC00))%N, r')
    | _ => None
    end
  else Some (v, r).
Proof. reflexivity. Qed.

Lemma scalar_bounds c :
  scalar c = true -> (c <= 0x10FFFF /\ (c < 0xD800 \/ 0xDFFF < c))%N.
Proof.
  unfold scalar, is_surrogate. intros [Hmax Hsur]%andb_prop.
  apply N.leb_le in Hmax. split; [exact Hmax|].
  destruct (N.leb_spec 0xD800 c); [|now left].
  destruct (N.leb_spec c 0xDFFF); [discriminate | now right].
Qed.

(** The escape of a character is read back as that character. *)
Lemma json_unescape_head_escape c rest :
  scalar c = true ->
  json_unescape_head (json_escape_char c ++ rest) = Some (c, rest).
Proof.
  intros [Hmax Hsur]%scalar_bounds. unfold json_escape_char.
  repeat match goal with
         | |- context [(c =? ?k)%N] => destruct (N.eqb_spec c k) as [->|?]; [reflexivity|]
         end.
  destruct ((32 <=? c) && (c <=? 126))%N.
  - cbn [app json_unescape_head].
    destruct (N.eqb_spec c 34); [contradiction|].
    destruct (N.eqb_spec c 92); [contradiction | reflexivity].
  - destruct (N.ltb_spec c 0x10000) as [Hbmp|Hastral].
    + unfold u_escape. cbn [app]. rewrite json_unescape_head_u, hex4_digits by exact Hbmp.
      cbn zeta. destruct (N.leb_spec 0xD800 c); [|reflexivity].
      destruct (N.ltb_spec c 0xDC00); [lia | reflexivity].
    + assert (0xD800 <= high_surrogate c < 0xDC00)%N as [Hlo Hhi].
      { unfold high_surrogate.
        pose proof (N.mod_lt ((c - 0x10000) / 1024) 1024 ltac:(discriminate)) as Hmod.
        set (x := (((c - 0x10000) / 1024) mod 1024)%N) in *. lia. }
      assert (low_surrogate c < 0x10000)%N as Hlow.
      { unfold low_surrogate.
        pose proof (N.mod_lt (c - 0x10000) 1024 ltac:(discriminate)) as Hmod.
        set (x := ((c - 0x10000) mod 1024)%N) in *. lia. }
      unfold u_escape at 1. cbn [app].
      rewrite json_unescape_head_u, hex4_digits by lia. cbn zeta.
      destruct (N.leb_spec 0xD800 (high_surrogate c)); [|lia].
      destruct (N.ltb_spec (high_surrogate c) 0xDC00); [|lia].
      cbn [andb u_escape app]. rewrite hex4_digits by exact Hlow.
      f_equal. f_equal. unfold high_surrogate, low_surrogate.
      zify. Z.to_euclidean_division_equations. lia.
Qed.

(** An escaped string followed by its closing quote can be read back in
    one way only. *)
Lemma json_escape_unique s t rest1 rest2 :
  forallb scalar s = true -> forallb scalar t = true ->
  json_escape s ++ quote_char :: rest1 = json_escape t ++ quote_char :: rest2 ->
  s = t /\ rest1 = rest2.
Proof.
  revert t. induction s as [|c s IH]; intros [|c' t] Hs Ht H.
  - injection H as ->. auto.
  - apply andb_prop in Ht as [Hc' _].
    apply (f_equal json_unescape_head) in H. cbn [json_escape] in H.
    rewrite <- app_assoc, json_unescape_head_escape in H by exact Hc'. discriminate H.
  - apply andb_prop in Hs as [Hc _].
    apply (f_equal json_unescape_head) in H. cbn [json_escape] in H.
    rewrite <- app_assoc, json_unescape_head_escape in H by exact Hc. discriminate H.
  - apply andb_prop in Hs as [Hc Hs]. apply andb_prop in Ht as [Hc' Ht].
    apply (f_equal json_unescape_head) in H. cbn [json_escape] in H.
    rewrite <- !app_assoc in H.
    rewrite (json_unescape_head_escape c) in H by exact Hc.
    rewrite (json_unescape_head_escape c') in H by exact Hc'.
    injection H as -> H. destruct (IH t Hs Ht H) as [-> ->]. auto.
Qed.

Lemma json_string_unique s t rest1 rest2 :
  forallb scalar s = true -> forallb scalar t = true ->
  json_string s ++ rest1 = json_string t ++ rest2 ->
  s = t /\ rest1 = rest2.
Proof.
  intros Hs Ht. unfold json_string. cbn [app]. rewrite <- !app_assoc. cbn [app].
  intros [= H]. now apply json_escape_unique.
Qed.

Lemma isoformat_scalar t : forallb scalar (isoformat t) = true.
Proof.
  apply ExceptionsSpec.isoformat_chars; try reflexivity.
  intros d Hd. unfold scalar, is_surrogate.
  destruct (N.leb_spec d 0x10FFFF); [|lia].
  destruct (N.leb_spec 0xD800 d); [lia | reflexivity].
Qed.

(** Taking a text apart from the left: the same fixed piece on both sides
    is dropped, a string literal gives the equality of the two strings. *)
Ltac peel H :=
  repeat first
    [ apply app_inv_head in H
    | let E := fresh "E" in
      apply json_string_unique in H as [E H];
      [| solve [assumption | apply isoformat_scalar] ..] ].

(** X19: nothing is lost in [to_json] when the exceptions hold characters
    only (no surrogate): two such exceptions have the same text, compact
    or pretty, exactly when they have the same name, the same message, the
    same type and the same timestamp text. *)
Theorem to_json_determines_fields (ex ex' : AndroidException) (pretty : bool) :
  well_formed ex = true -> well_formed ex' = true ->
  (to_json ex pretty = to_json ex' pretty
   <-> name ex = name ex' /\ message ex = message ex' /\ type ex = type ex'
       /\ isoformat (timestamp ex) = isoformat (timestamp ex')).
Proof.
  unfold well_formed.
  intros [[Hn Hm]%andb_prop Ht]%andb_prop [[Hn' Hm']%andb_prop Ht']%andb_prop.
  split.
  - unfold to_json, to_dict. destruct pretty.
    + unfold dumps_indent. cbn [map]. rewrite !join_cons. cbn [join]. unfold json_item.
      cbn [fst snd]. rewrite <- !app_assoc. intros H. peel H. auto.
    + unfold dumps. cbn [map]. rewrite !join_cons. cbn [join]. unfold json_item.
      cbn [fst snd]. rewrite <- !app_assoc. intros H. peel H. auto.
  - intros (En & Em & Et & Ets). unfold to_json, to_dict.
    now rewrite En, Em, Et, Ets.
Qed.

(** The names U+1F600 and U+1F601 differ in the last digit of their
    second escape only; the texts differ. *)
Lemma to_json_determines_fields_witness :
  to_json astral true <> to_json astral_next true.
Proof.
  intros H.
  apply (to_json_determines_fields astral astral_next true eq_refl eq_refl) in H.
  destruct H as [Hname _]. discriminate Hname.
Defined.

(** A surrogate is not a character: the two surrogates of U+1F600, as a
    name, give the text that the character itself gives. *)
Example to_json_surrogate_pair :
  name astral <> name surrogate_pair
  /\ to_json astral false = to_json surrogate_pair false
  /\ to_json astral true = to_json surrogate_pair true.
Proof. split; [discriminate | split; reflexivity]. Qed.

(** *** The file the CSV export leaves *)

Lemma save_to_csv_files m filepath fs :
  (save_to_csv m filepath fs).1 =
  match exceptions m with
  | [] => fs
  | _ :: _ =>
      <[filepath := csv_header_line
                    ++ concat (map csv_record (encodable_prefix (exceptions m)))]> fs
  end.
Proof.
  rewrite ExceptionsSpec.save_to_csv_prefix. now destruct (exceptions m).
Qed.

Lemma save_to_csv_raises m filepath fs :
  (save_to_csv m filepath fs).2 =
  if forallb encodable_exception (exceptions m) then Ok tt else Raise UnicodeEncodeError.
Proof.
  rewrite ExceptionsSpec.save_to_csv_prefix. now destruct (exceptions m).
Qed.

(** X20: [save_to_csv] touches one file at most.  Every other path keeps
    its content; for a non-empty collection the file at the path is
    replaced, whatever it held, and exporting twice is exporting once; for
    an empty collection an older file at the path stays as it was. *)
Theorem save_to_csv_one_file (m : ExceptionManager) (filepath : string)
    (fs : filesystem) :
  (forall other, other <> filepath ->
     (save_to_csv m filepath fs).1 !! other = fs !! other)
  /\ (forall fs' : filesystem, exceptions m <> [] ->
        (save_to_csv m filepath fs).1 !! filepath
        = (save_to_csv m filepath fs').1 !! filepath)
  /\ save_to_csv m filepath (save_to_csv m filepath fs).1 = save_to_csv m filepath fs
  /\ (exceptions m = [] ->
      (save_to_csv m filepath fs).1 !! filepath = fs !! filepath).
Proof.
  split; [|split; [|split]].
  - intros other Hne. rewrite save_to_csv_files.
    destruct (exceptions m); [reflexivity | now apply lookup_insert_ne].
  - intros fs' Hne. rewrite !save_to_csv_files.
    destruct (exceptions m); [contradiction|]. now rewrite !lookup_insert_eq.
  - apply injective_projections.
    + rewrite !save_to_csv_files.
      destruct (exceptions m); [reflexivity | apply insert_insert_eq].
    + now rewrite !save_to_csv_raises.
  - intros Hempty. rewrite save_to_csv_files, Hempty. reflexivity.
Qed.

Lemma save_to_csv_one_file_witness :
  (save_to_csv init "report.csv" {[ "report.csv" := str "old" ]}).1 !! "report.csv"
  = Some (str "old")
  /\ (save_to_csv reported "report.csv" {[ "report.csv" := str "old" ]}).1 !! "report.csv"
     = (save_to_csv reported "report.csv" ∅).1 !! "report.csv".
Proof.
  split.
  - rewrite (proj2 (proj2 (proj2 (save_to_csv_one_file init "report.csv"
                                     {[ "report.csv" := str "old" ]}))) eq_refl).
    reflexivity.
  - apply (proj1 (proj2 (save_to_csv_one_file reported "report.csv"
                           {[ "report.csv" := str "old" ]}))).
    discriminate.
Defined.

Lemma save_to_csv_nonempty m filepath fs :
  exceptions m <> [] ->
  save_to_csv m filepath fs
  = (<[filepath := csv_header_line
                   ++ concat (map csv_record (encodable_prefix (exceptions m)))]> fs,
     if forallb encodable_exception (exceptions m)
     then Ok tt else Raise UnicodeEncodeError).
Proof.
  intros Hne. rewrite ExceptionsSpec.save_to_csv_prefix.
  destruct (exceptions m); [contradiction | reflexivity].
Qed.

Lemma encodable_prefix_forallb l :
  forallb encodable_exception l = true -> encodable_prefix l = l.
Proof.
  induction l as [|ex l IH]; [reflexivity|]. cbn [forallb encodable_prefix].
  intros [-> Hl]%andb_prop. now rewrite (IH Hl).
Qed.

Lemma encodable_prefix_app l l' :
  encodable_prefix (l ++ l')
  = if forallb encodable_exception l then l ++ encodable_prefix l' else encodable_prefix l.
Proof.
  induction l as [|ex l IH]; [reflexivity|].
  cbn [app encodable_prefix forallb]. rewrite IH.
  destruct (encodable_exception ex); [|reflexivity]. cbn [andb].
  destruct (forallb encodable_exception l); reflexivity.
Qed.

(** X21: the CSV export grows by one line per exception.  After
    [add_exception] on a non-empty collection whose export succeeds, the
    export writes the former text followed by the line of the new
    exception, when the new exception can be encoded; when it holds a
    surrogate the export raises [UnicodeEncodeError] and the file is the
    former text, without a line for it.  When the former export raised,
    the new one raises the same and leaves the same file. *)
Theorem save_to_csv_add_exception (m : ExceptionManager) (ex : AndroidException)
    (filepath : string) (fs : filesystem) (before : pystr) :
  exceptions m <> [] ->
  (save_to_csv m filepath fs).1 !! filepath = Some before ->
  save_to_csv (add_exception m ex) filepath fs
  = match (save_to_csv m filepath fs).2 with
    | Ok _ =>
        if encodable_exception ex
        then (<[filepath := before ++ csv_field (name ex) ++ [comma]
                            ++ csv_field (message ex) ++ [comma]
                            ++ csv_field (type ex) ++ [comma]
                            ++ isoformat (timestamp ex) ++ crlf]> fs,
              Ok tt)
        else (<[filepath := before]> fs, Raise UnicodeEncodeError)
    | Raise e => (<[filepath := before]> fs, Raise e)
    end.
Proof.
  intros Hne.
  rewrite (save_to_csv_nonempty m), (save_to_csv_nonempty (add_exception m ex));
    [|unfold add_exception; cbn [exceptions]; destruct (exceptions m);
      [contradiction | discriminate] | exact Hne].
  cbn [fst snd]. rewrite lookup_insert_eq. intros Hbefore.
  assert (csv_header_line ++ concat (map csv_record (encodable_prefix (exceptions m)))
          = before) as <- by congruence.
  clear Hbefore. unfold add_exception. cbn [exceptions].
  rewrite encodable_prefix_app, forallb_app. cbn [encodable_prefix forallb].
  destruct (forallb encodable_exception (exceptions m)) eqn:Hall; [|reflexivity].
  rewrite (encodable_prefix_forallb _ Hall).
  destruct (encodable_exception ex); cbn [andb].
  - rewrite map_app, concat_app. cbn [map concat]. rewrite app_nil_r, <- app_assoc.
    reflexivity.
  - now rewrite app_nil_r.
Qed.

(** A third exception, with a comma in its message, adds one line with
    the message in quotes; a third exception with a surrogate for its name
    adds nothing and makes the export raise. *)
Lemma save_to_csv_add_exception_witness :
  exists before,
    (save_to_csv reported "report.csv" ∅).1 !! "report.csv" = Some before
    /\ save_to_csv (add_exception reported disconnected) "report.csv" ∅
       = (<["report.csv" := before ++ str "DisconnectException," ++ [quote_char]
                            ++ str "gone, again" ++ [quote_char]
                            ++ str ",A,2025-03-07T12:00:05.001234" ++ crlf]> ∅,
          Ok tt)
    /\ save_to_csv (add_exception reported lone_surrogate) "report.csv" ∅
       = (<["report.csv" := before]> ∅, Raise UnicodeEncodeError).
Proof.
  exists (csv_header_line ++ concat (map csv_record (exceptions reported))).
  split; [reflexivity|]. split.
  - rewrite (save_to_csv_add_exception reported disconnected "report.csv" ∅
               (csv_header_line ++ concat (map csv_record (exceptions reported))));
      [reflexivity | discriminate | reflexivity].
  - rewrite (save_to_csv_add_exception reported lone_surrogate "report.csv" ∅
               (csv_header_line ++ concat (map csv_record (exceptions reported))));
      [reflexivity | discriminate | reflexivity].
Defined.


End ExceptionsProps.
